(** * Contact form controller of the portfolio page (script.js)

    A shallow embedding of [initializeContactForm]: the three field
    validators, [validateForm], the submit handler, the simulated
    submission and the success notification, over an explicit model of the
    part of the page they read and write. *)

From Stdlib Require Import List NArith ZArith QArith Arith Bool String Ascii Lia.
Close Scope Q_scope.
Import ListNotations.

Set Implicit Arguments.

(** ** JavaScript strings *)

(** A JavaScript string is a sequence of UTF-16 code units; [length] is the
    number of code units, as [String.prototype.length]. *)
Definition jsstring := list N.

(** The code units of an ASCII literal. *)
Definition str (s : string) : jsstring :=
  map N_of_ascii (list_ascii_of_string s).

(** WhiteSpace and LineTerminator of ECMAScript: what [trim] strips and what
    [\s] matches. *)
Definition isWhiteSpace (c : N) : bool :=
  match c with
  | 9 | 10 | 11 | 12 | 13 | 32 | 160 => true
  | 5760 => true                          (* U+1680 *)
  | 8232 | 8233 | 8239 | 8287 => true     (* U+2028 U+2029 U+202F U+205F *)
  | 12288 | 65279 => true                 (* U+3000 U+FEFF *)
  | _ => (8192 <=? c) && (c <=? 8202)     (* U+2000 .. U+200A *)
  end%N.

Fixpoint trimStart (s : jsstring) : jsstring :=
  match s with
  | [] => []
  | c :: s' => if isWhiteSpace c then trimStart s' else s
  end.

Fixpoint trimEnd (s : jsstring) : jsstring :=
  match s with
  | [] => []
  | c :: s' =>
      match trimEnd s' with
      | [] => if isWhiteSpace c then [] else [c]
      | t => c :: t
      end
  end.

(** [String.prototype.trim]. *)
Definition trim (s : jsstring) : jsstring := trimEnd (trimStart s).

(** ** Regular expressions, as backtracking matchers

    A matcher takes the index reached in the input, the input that is left
    and a continuation, as the pattern semantics of ECMAScript does. *)
Module RegExp.

Definition Continuation := nat -> jsstring -> bool.
Definition Matcher := nat -> jsstring -> Continuation -> bool.

(** [^] without the multiline flag. *)
Definition assertStart : Matcher :=
  fun i s k => (i =? 0) && k i s.

(** [$] without the multiline flag. *)
Definition assertEnd : Matcher :=
  fun i s k => match s with [] => k i s | _ :: _ => false end.

(** One code unit of a character set. *)
Definition charSet (p : N -> bool) : Matcher :=
  fun i s k =>
    match s with
    | [] => false
    | c :: s' => p c && k (S i) s'
    end.

(** A character set under the greedy quantifier [+]: the longer match is
    tried first, the shorter one on backtracking. *)
Fixpoint plusSet (p : N -> bool) (i : nat) (s : jsstring)
         (k : Continuation) : bool :=
  match s with
  | [] => false
  | c :: s' => p c && (plusSet p (S i) s' k || k (S i) s')
  end.

Definition seq (m1 m2 : Matcher) : Matcher :=
  fun i s k => m1 i s (fun i' s' => m2 i' s' k).

Definition accept : Continuation := fun _ _ => true.

(** [RegExp.prototype.test] for a pattern without the global and sticky
    flags: the pattern is tried at every start index, from 0. *)
Definition test (m : Matcher) (s : jsstring) : bool :=
  existsb (fun i => m i (skipn i s) accept) (List.seq 0 (S (List.length s))).

End RegExp.

Definition AT : N := 64.   (* '@' *)
Definition DOT : N := 46.  (* '.' *)

(** The set [[^\s@]]. *)
Definition notSpaceAt (c : N) : bool :=
  negb (isWhiteSpace c || (c =? AT)%N).

(** [/^[^\s@]+@[^\s@]+\.[^\s@]+$/] *)
Definition emailRegex : RegExp.Matcher :=
  RegExp.seq RegExp.assertStart
 (RegExp.seq (RegExp.plusSet notSpaceAt)
 (RegExp.seq (RegExp.charSet (N.eqb AT))
 (RegExp.seq (RegExp.plusSet notSpaceAt)
 (RegExp.seq (RegExp.charSet (N.eqb DOT))
 (RegExp.seq (RegExp.plusSet notSpaceAt)
             RegExp.assertEnd))))).

(** ** The page *)

Inductive Field := Name | Email | Message.

(** One slot per form field. *)
Record PerField (A : Type) := perField { ofName : A; ofEmail : A; ofMessage : A }.

Definition get A (f : Field) (r : PerField A) : A :=
  match f with
  | Name => ofName r
  | Email => ofEmail r
  | Message => ofMessage r
  end.

Definition set A (f : Field) (v : A) (r : PerField A) : PerField A :=
  match f with
  | Name => perField v (ofEmail r) (ofMessage r)
  | Email => perField (ofName r) v (ofMessage r)
  | Message => perField (ofName r) (ofEmail r) v
  end.

Definition Field_eqb (f g : Field) : bool :=
  match f, g with
  | Name, Name | Email, Email | Message, Message => true
  | _, _ => false
  end.

(** What the script takes from the markup of the page, which is not part of
    the script: the default value of each control, which [form.reset()]
    restores, and, for each error element, the control that
    [errorElement.parentElement.querySelector('input, textarea')] finds. *)
Record Markup := {
  defaultValue : Field -> jsstring;
  groupInput : Field -> Field
}.

(** The callbacks handed to [setTimeout]. *)
Inductive Callback :=
| FinishSubmission (originalText : jsstring)   (* handleFormSubmission, line 251 *)
| AutoRemove (notification : nat).             (* showSuccessMessage, line 331 *)

Record Timer := { due : N; callback : Callback }.

(** The part of the document the contact form reads and writes.  A
    notification node is named by its creation number. *)
Record State := {
  values : PerField jsstring;        (* nameField.value, emailField.value, messageField.value *)
  borderColor : PerField jsstring;   (* style.borderColor of the three controls *)
  textContent : PerField jsstring;   (* textContent of name-error, email-error, message-error *)
  shown : PerField bool;             (* whether their classList holds 'show' *)
  buttonHTML : jsstring;             (* submitButton.innerHTML *)
  buttonDisabled : bool;             (* submitButton.disabled *)
  notifications : list nat;          (* notification nodes attached to document.body *)
  styles : nat;                      (* style elements appended to document.head *)
  created : nat;                     (* notification nodes created so far *)
  now : N;                           (* clock, in milliseconds *)
  timers : list Timer                (* pending timeouts *)
}.

Definition withValues v st :=
  {| values := v; borderColor := borderColor st; textContent := textContent st;
     shown := shown st; buttonHTML := buttonHTML st;
     buttonDisabled := buttonDisabled st; notifications := notifications st;
     styles := styles st; created := created st; now := now st;
     timers := timers st |}.

Definition withBorderColor v st :=
  {| values := values st; borderColor := v; textContent := textContent st;
     shown := shown st; buttonHTML := buttonHTML st;
     buttonDisabled := buttonDisabled st; notifications := notifications st;
     styles := styles st; created := created st; now := now st;
     timers := timers st |}.

Definition withTextContent v st :=
  {| values := values st; borderColor := borderColor st; textContent := v;
     shown := shown st; buttonHTML := buttonHTML st;
     buttonDisabled := buttonDisabled st; notifications := notifications st;
     styles := styles st; created := created st; now := now st;
     timers := timers st |}.

Definition withShown v st :=
  {| values := values st; borderColor := borderColor st; textContent := textContent st;
     shown := v; buttonHTML := buttonHTML st;
     buttonDisabled := buttonDisabled st; notifications := notifications st;
     styles := styles st; created := created st; now := now st;
     timers := timers st |}.

Definition withButton html dis st :=
  {| values := values st; borderColor := borderColor st; textContent := textContent st;
     shown := shown st; buttonHTML := html;
     buttonDisabled := dis; notifications := notifications st;
     styles := styles st; created := created st; now := now st;
     timers := timers st |}.

Definition withNotifications v st :=
  {| values := values st; borderColor := borderColor st; textContent := textContent st;
     shown := shown st; buttonHTML := buttonHTML st;
     buttonDisabled := buttonDisabled st; notifications := v;
     styles := styles st; created := created st; now := now st;
     timers := timers st |}.

Definition withTimers v st :=
  {| values := values st; borderColor := borderColor st; textContent := textContent st;
     shown := shown st; buttonHTML := buttonHTML st;
     buttonDisabled := buttonDisabled st; notifications := notifications st;
     styles := styles st; created := created st; now := now st;
     timers := v |}.

Definition withNow v st :=
  {| values := values st; borderColor := borderColor st; textContent := textContent st;
     shown := shown st; buttonHTML := buttonHTML st;
     buttonDisabled := buttonDisabled st; notifications := notifications st;
     styles := styles st; created := created st; now := v;
     timers := timers st |}.

(** [setTimeout(cb, delay)] *)
Definition setTimeout (cb : Callback) (delay : N) (st : State) : State :=
  withTimers (timers st ++ [{| due := (now st + delay)%N; callback := cb |}]) st.

(** The user changes the value of a control. *)
Definition setValue (f : Field) (v : jsstring) (st : State) : State :=
  withValues (set f v (values st)) st.

(** ** The contact form controller ([initializeContactForm]) *)

Definition nameTooShort : jsstring := str "Name must be at least 2 characters long".
Definition emailNotValid : jsstring := str "Please enter a valid email address".
Definition messageTooShort : jsstring := str "Message must be at least 10 characters long".

Definition errorBorder : jsstring := str "#ff4757".
Definition plainBorder : jsstring := str "rgba(255, 255, 255, 0.1)".

Definition QUOTE : N := 34.

(** The markup of the spinner, line 247. *)
Definition sendingHTML : jsstring :=
  str "<i class=" ++ [QUOTE] ++ str "fas fa-spinner fa-spin" ++ [QUOTE]
      ++ str "></i> Sending...".

Section ContactForm.

Variable page : Markup.

(** The error element of field [f] stands for
    [document.getElementById('<f>-error')]. *)
Definition showError (f : Field) (message : jsstring) (st : State) : State :=
  let st1 := withTextContent (set f message (textContent st)) st in
  let st2 := withShown (set f true (shown st1)) st1 in
  withBorderColor (set (groupInput page f) errorBorder (borderColor st2)) st2.

Definition hideError (f : Field) (st : State) : State :=
  let st1 := withShown (set f false (shown st)) st in
  withBorderColor (set (groupInput page f) plainBorder (borderColor st1)) st1.

Definition validateName (st : State) : State * bool :=
  let name := trim (get Name (values st)) in
  if List.length name <? 2
  then (showError Name nameTooShort st, false)
  else (hideError Name st, true).

Definition validateEmail (st : State) : State * bool :=
  let email := trim (get Email (values st)) in
  if negb (RegExp.test emailRegex email)
  then (showError Email emailNotValid st, false)
  else (hideError Email st, true).

Definition validateMessage (st : State) : State * bool :=
  let message := trim (get Message (values st)) in
  if List.length message <? 10
  then (showError Message messageTooShort st, false)
  else (hideError Message st, true).

Definition validateForm (st : State) : State * bool :=
  let (st1, nameValid) := validateName st in
  let (st2, emailValid) := validateEmail st1 in
  let (st3, messageValid) := validateMessage st2 in
  (st3, nameValid && emailValid && messageValid).

(** [document.body.contains(notification)] *)
Definition contains (notification : nat) (st : State) : bool :=
  existsb (Nat.eqb notification) (notifications st).

(** [notification.remove()]: detaches the node if it is attached. *)
Definition remove (notification : nat) (st : State) : State :=
  withNotifications
    (filter (fun n => negb (n =? notification)) (notifications st)) st.

Definition showSuccessMessage (st : State) : State :=
  let notification := created st in
  let st1 :=
    {| values := values st; borderColor := borderColor st;
       textContent := textContent st; shown := shown st;
       buttonHTML := buttonHTML st; buttonDisabled := buttonDisabled st;
       notifications := notifications st ++ [notification];
       styles := S (styles st);
       created := S (created st);
       now := now st; timers := timers st |} in
  setTimeout (AutoRemove notification) 5000 st1.

(** [form.reset()] *)
Definition reset (st : State) : State :=
  withValues (perField (defaultValue page Name) (defaultValue page Email)
                       (defaultValue page Message)) st.

Definition handleFormSubmission (st : State) : State :=
  let originalText := buttonHTML st in
  let st1 := withButton sendingHTML true st in
  setTimeout (FinishSubmission originalText) 2000 st1.

(** The bodies of the two timeout callbacks. *)
Definition runCallback (cb : Callback) (st : State) : State :=
  match cb with
  | FinishSubmission originalText =>
      let st1 := showSuccessMessage st in
      let st2 := reset st1 in
      withButton originalText false st2
  | AutoRemove notification =>
      if contains notification st then remove notification st else st
  end.

(** The listener of the form's submit event. *)
Definition onSubmit (st : State) : State :=
  let (st1, isValid) := validateForm st in
  if isValid then handleFormSubmission st1 else st1.

(** The blur listeners. *)
Definition onBlur (f : Field) (st : State) : State * bool :=
  match f with
  | Name => validateName st
  | Email => validateEmail st
  | Message => validateMessage st
  end.

(** The click listener of a notification's close button. *)
Definition onCloseClick (notification : nat) (st : State) : State :=
  remove notification st.

(** *** Events of the page *)

Inductive Event :=
| Edit (f : Field) (v : jsstring)   (* the user changes a field *)
| Blur (f : Field)
| Submit
| Wait (d : N)                      (* d milliseconds pass *)
| Fire (i : nat)                    (* the i-th pending timeout runs *)
| ClickClose (notification : nat).

Fixpoint dropNth A (i : nat) (l : list A) : list A :=
  match l, i with
  | [], _ => []
  | _ :: l', 0 => l'
  | x :: l', S i' => x :: dropNth i' l'
  end.

(** One event; [None] when the browser cannot deliver it: no submit event
    comes from a disabled submit button, a timeout does not run before it
    is due, and only an attached notification can be clicked. *)
Definition step (st : State) (e : Event) : option State :=
  match e with
  | Edit f v => Some (setValue f v st)
  | Blur f => Some (fst (onBlur f st))
  | Submit => if buttonDisabled st then None else Some (onSubmit st)
  | Wait d => Some (withNow (now st + d)%N st)
  | Fire i =>
      match nth_error (timers st) i with
      | Some t =>
          if (due t <=? now st)%N
          then Some (runCallback (callback t)
                                 (withTimers (dropNth i (timers st)) st))
          else None
      | None => None
      end
  | ClickClose n =>
      if contains n st then Some (onCloseClick n st) else None
  end.

Fixpoint run (st : State) (es : list Event) : option State :=
  match es with
  | [] => Some st
  | e :: es' =>
      match step st e with
      | Some st' => run st' es'
      | None => None
      end
  end.

(** The page after loading: no notification, no pending timeout, the
    submit button enabled. *)
Definition loaded (st : State) : Prop :=
  notifications st = [] /\ timers st = [] /\ buttonDisabled st = false.

Definition reachable (st : State) : Prop :=
  exists st0 es, loaded st0 /\ run st0 es = Some st.

End ContactForm.

(** The submission state of the specification, read off the page: the
    submit button is disabled exactly from [handleFormSubmission] to the
    end of its timeout, and a notification is attached from then until it is
    dismissed or expires. *)
Inductive SubmissionState := Idle | Submitting | Succeeded.

Definition submissionState (st : State) : SubmissionState :=
  if buttonDisabled st then Submitting
  else match notifications st with
       | [] => Idle
       | _ :: _ => Succeeded
       end.

(** The validation result of the specification, and the one the page
    displays for a field: its error element carries the reason while its
    classList holds 'show'. *)
Inductive ValidationResult := Valid | Invalid (why : jsstring).

Definition displayed (f : Field) (st : State) : ValidationResult :=
  if get f (shown st) then Invalid (get f (textContent st)) else Valid.

(** The validity of a field's value, as its validator decides it. *)
Definition validValue (f : Field) (v : jsstring) : bool :=
  match f with
  | Name => negb (List.length (trim v) <? 2)
  | Email => RegExp.test emailRegex (trim v)
  | Message => negb (List.length (trim v) <? 10)
  end.

(** The reason each validator gives. *)
Definition reason (f : Field) : jsstring :=
  match f with
  | Name => nameTooShort
  | Email => emailNotValid
  | Message => messageTooShort
  end.

(** The pattern in the words of the specification: non-space characters,
    '@', non-space characters, '.', non-space characters.  *)
Definition nonSpace (c : N) : bool := negb (isWhiteSpace c).

Definition matchesSpecPattern (s : jsstring) : Prop :=
  exists a b c,
    s = a ++ [AT] ++ b ++ [DOT] ++ c /\
    a <> [] /\ b <> [] /\ c <> [] /\
    forallb nonSpace a = true /\ forallb nonSpace b = true /\
    forallb nonSpace c = true.

(** The language of [emailRegex], segment by segment. *)
Definition matchesEmailRegex (s : jsstring) : Prop :=
  exists a b c,
    s = a ++ [AT] ++ b ++ [DOT] ++ c /\
    a <> [] /\ b <> [] /\ c <> [] /\
    forallb notSpaceAt a = true /\ forallb notSpaceAt b = true /\
    forallb notSpaceAt c = true.

(** A page for examples: empty defaults, each error element grouped with
    its own control. *)
Definition plainPage : Markup :=
  {| defaultValue := fun _ => []; groupInput := fun f => f |}.

Definition freshState (name email message : jsstring) : State :=
  {| values := perField name email message;
     borderColor := perField plainBorder plainBorder plainBorder;
     textContent := perField [] [] [];
     shown := perField false false false;
     buttonHTML := str "Send Message";
     buttonDisabled := false;
     notifications := [];
     styles := 0;
     created := 0;
     now := 0;
     timers := [] |}.

(** What holds of the notifications on every page the events can produce:
    the attached nodes are distinct, were all created by
    [showSuccessMessage], and each still has its auto-remove timeout
    pending, due at most 5000 ms from now. *)
Definition notificationsKept (st : State) : Prop :=
  NoDup (notifications st) /\
  forall n, In n (notifications st) ->
            n < created st /\
            exists d, (d <= now st + 5000)%N /\
                      In {| due := d; callback := AutoRemove n |} (timers st).

(** The scenarios of the specification. *)
Definition validForm : State :=
  freshState (str "Jo") (str "jo@example.com") (str "Hello there, how are you?").

Definition invalidForm : State :=
  freshState (str "J") (str "bad") (str "short").

(** Two submissions, the second one 500 ms after the first has completed. *)
Definition submitTwice : list Event :=
  [ Submit; Wait 2000; Fire 0;
    Edit Name (str "Jo"); Edit Email (str "jo@example.com");
    Edit Message (str "Hello there, how are you?");
    Wait 500; Submit; Wait 2000; Fire 1 ].

Definition afterSubmitTwice : State :=
  Eval vm_compute in
    match run plainPage validForm submitTwice with
    | Some st => st
    | None => validForm
    end.



(** The events that run a validator. *)
Definition validates (e : Event) : bool :=
  match e with
  | Blur _ | Submit => true
  | _ => false
  end.


(** ** [throttle] (lines 435-445)

    One closure made by [throttle(func, wait)]: its variable [timeout], the
    timeouts it has set that are still pending, and the calls of [func] so
    far.  The arguments of a call are of any type [A]. *)
Module Throttle.

Section Closure.

Variable A : Type.
Variable wait : N.

(** A pending timeout; its callback [later] holds the arguments of the call
    that set it. *)
Record Pending := { handle : nat; dueAt : N; args : A }.

Record State := {
  timeout : option nat;     (* the variable [timeout], undefined at first *)
  pending : list Pending;
  nextHandle : nat;         (* the handle the next setTimeout returns *)
  clock : N;                (* in milliseconds *)
  invoked : list A          (* the calls of [func], oldest first *)
}.

(** [clearTimeout(timeout)]: nothing happens for undefined or for a handle
    that is no longer pending. *)
Definition clearTimeout (h : option nat) (st : State) : State :=
  match h with
  | None => st
  | Some i =>
      {| timeout := timeout st;
         pending := filter (fun p => negb (handle p =? i)) (pending st);
         nextHandle := nextHandle st; clock := clock st;
         invoked := invoked st |}
  end.

Definition executedFunction (a : A) (st : State) : State :=
  let st1 := clearTimeout (timeout st) st in
  let h := nextHandle st1 in
  {| timeout := Some h;
     pending := pending st1 ++
                [{| handle := h; dueAt := (clock st1 + wait)%N; args := a |}];
     nextHandle := S h; clock := clock st1; invoked := invoked st1 |}.

Definition later (a : A) (st : State) : State :=
  let st1 := clearTimeout (timeout st) st in
  {| timeout := timeout st1; pending := pending st1;
     nextHandle := nextHandle st1; clock := clock st1;
     invoked := invoked st1 ++ [a] |}.

Inductive Event :=
| Call (a : A)      (* the throttled function is called *)
| Wait (d : N)
| Fire (h : nat).   (* the timeout with handle h runs *)

(** A timeout runs only when it is pending and due; it is no longer pending
    while its callback runs. *)
Definition step (st : State) (e : Event) : option State :=
  match e with
  | Call a => Some (executedFunction a st)
  | Wait d =>
      Some {| timeout := timeout st; pending := pending st;
              nextHandle := nextHandle st; clock := (clock st + d)%N;
              invoked := invoked st |}
  | Fire h =>
      match find (fun p => handle p =? h) (pending st) with
      | Some p =>
          if (dueAt p <=? clock st)%N
          then Some (later (args p)
                       {| timeout := timeout st;
                          pending := filter (fun q => negb (handle q =? h))
                                            (pending st);
                          nextHandle := nextHandle st; clock := clock st;
                          invoked := invoked st |})
          else None
      | None => None
      end
  end.

Fixpoint run (st : State) (es : list Event) : option State :=
  match es with
  | [] => Some st
  | e :: es' =>
      match step st e with
      | Some st' => run st' es'
      | None => None
      end
  end.

(** The closure as [throttle] returns it. *)
Definition fresh (h : nat) (t : N) : State :=
  {| timeout := None; pending := []; nextHandle := h; clock := t;
     invoked := [] |}.

(** At most one timeout is pending, and it is the one [timeout] names. *)
Definition onePending (st : State) : Prop :=
  pending st = [] \/
  exists p, pending st = [p] /\ timeout st = Some (handle p).

Definition isFire (e : Event) : bool :=
  match e with Fire _ => true | _ => false end.

Definition isCall (e : Event) : bool :=
  match e with Call _ => true | _ => false end.

(** The time that passes during a list of events. *)
Definition elapsed (es : list Event) : N :=
  fold_right (fun e t => match e with Wait d => d + t | _ => t end)%N 0%N es.

End Closure.

Arguments Wait {A} d.
Arguments Fire {A} h.

End Throttle.

(** ** The typing effect of the hero title (lines 413-429) *)
Module TypeWriter.

(** [String.prototype.charAt]: the empty string when out of range. *)
Definition charAt (s : jsstring) (i : nat) : jsstring :=
  match nth_error s i with
  | Some c => [c]
  | None => []
  end.

Record State := {
  text : jsstring;          (* const text, the title as it was *)
  i : nat;                  (* let i *)
  heroTitle : jsstring;     (* heroTitle.textContent *)
  timer : option N;         (* when the pending timeout of typeWriter is due *)
  clock : N                 (* in milliseconds *)
}.

(** Lines 415-428, run at time [t0] on a title that reads [title]. *)
Definition setup (title : jsstring) (t0 : N) : State :=
  {| text := title; i := 0; heroTitle := []; timer := Some (t0 + 1000)%N;
     clock := t0 |}.

Definition typeWriter (st : State) : State :=
  if i st <? List.length (text st)
  then {| text := text st;
          i := S (i st);
          heroTitle := heroTitle st ++ charAt (text st) (i st);
          timer := Some (clock st + 100)%N;
          clock := clock st |}
  else st.

Inductive Event :=
| Wait (d : N)
| Fire.          (* the pending timeout runs *)

Definition step (st : State) (e : Event) : option State :=
  match e with
  | Wait d =>
      Some {| text := text st; i := i st; heroTitle := heroTitle st;
              timer := timer st; clock := (clock st + d)%N |}
  | Fire =>
      match timer st with
      | Some d =>
          if (d <=? clock st)%N
          then Some (typeWriter
                       {| text := text st; i := i st;
                          heroTitle := heroTitle st; timer := None;
                          clock := clock st |})
          else None
      | None => None
      end
  end.

Fixpoint run (st : State) (es : list Event) : option State :=
  match es with
  | [] => Some st
  | e :: es' =>
      match step st e with
      | Some st' => run st' es'
      | None => None
      end
  end.

(** Every timeout runs the moment it is due: the first after 1000 ms, then
    [n] more, 100 ms apart. *)
Definition punctual (n : nat) : list Event :=
  [Wait 1000; Fire] ++ List.concat (repeat [Wait 100; Fire] n).

(** What the typing keeps true at time [clock st], started at [t0]. *)
Definition typing (title : jsstring) (t0 : N) (st : State) : Prop :=
  text st = title /\
  i st <= List.length title /\
  heroTitle st = firstn (i st) title /\
  (1 <= i st -> (t0 + 900 + 100 * N.of_nat (i st) <= clock st)%N) /\
  match timer st with
  | Some d => (t0 + 1000 + 100 * N.of_nat (i st) <= d)%N
  | None => i st = List.length title
  end.

End TypeWriter.

(** ** The mobile menu (lines 25-46) *)
Module Navigation.

Record State := {
  hamburgerActive : bool;   (* hamburger.classList holds 'active' *)
  navMenuActive : bool      (* navMenu.classList holds 'active' *)
}.

(** Where a click lands.  The hamburger holds no navigation link. *)
Inductive Target :=
| Hamburger                  (* on the hamburger or inside it *)
| NavLink (inMenu : bool)    (* on a .nav-link, inside the menu or not *)
| Elsewhere (inMenu : bool). (* anywhere else, inside the menu or not *)

Definition toggle (st : State) : State :=
  {| hamburgerActive := negb (hamburgerActive st);
     navMenuActive := negb (navMenuActive st) |}.

Definition close (st : State) : State :=
  {| hamburgerActive := false; navMenuActive := false |}.

(** The click listener of the document, line 40. *)
Definition documentClick (inHamburger inMenu : bool) (st : State) : State :=
  if negb inHamburger && negb inMenu then close st else st.

(** A click: the listener of the element first, then, as the event
    bubbles, the listener of the document. *)
Definition click (t : Target) (st : State) : State :=
  match t with
  | Hamburger => documentClick true false (toggle st)
  | NavLink inMenu => documentClick false inMenu (close st)
  | Elsewhere inMenu => documentClick false inMenu st
  end.

Definition clicks (ts : list Target) (st : State) : State :=
  fold_left (fun s t => click t s) ts st.

(** The hamburger clicks since the menu was last closed. *)
Fixpoint toggles (ts : list Target) (n : nat) : nat :=
  match ts with
  | [] => n
  | Hamburger :: ts' => toggles ts' (S n)
  | Elsewhere true :: ts' => toggles ts' n
  | _ :: ts' => toggles ts' 0
  end.

End Navigation.

(** ** Highlighting the navigation link of the section in view
    (lines 68-88) *)
Module ScrollSpy.

(** A [section] element: [offsetTop] and [offsetHeight] are integers, the
    id attribute may be missing. *)
Record Section_ := {
  offsetTop : Z;
  offsetHeight : Z;
  idAttr : option jsstring      (* getAttribute('id'), null when absent *)
}.

(** A navigation link. *)
Record Link := {
  href : option jsstring;       (* getAttribute('href'), null when absent *)
  active : bool                 (* classList holds 'active' *)
}.

(** A value in a template literal: null reads "null". *)
Definition toString (o : option jsstring) : jsstring :=
  match o with
  | Some s => s
  | None => str "null"
  end.

Definition HASH : N := 35.   (* '#' *)

(** [===] on strings. *)
Definition strictEq (a b : jsstring) : bool :=
  if list_eq_dec N.eq_dec a b then true else false.

(** The condition of line 77; [scrollY] is a number that need not be an
    integer. *)
Definition inBand (navbarHeight : Z) (scrollY : Q) (s : Section_) : bool :=
  let sectionTop := (offsetTop s - navbarHeight - 100)%Z in
  let sectionHeight := offsetHeight s in
  Qle_bool (inject_Z sectionTop) scrollY
  && negb (Qle_bool (inject_Z (sectionTop + sectionHeight)%Z) scrollY).

(** The first [forEach]: [currentSection] starts as the empty string. *)
Definition currentSection (navbarHeight : Z) (scrollY : Q)
           (sections : list Section_) : option jsstring :=
  fold_left (fun cur s => if inBand navbarHeight scrollY s then idAttr s else cur)
            sections (Some []).

(** The second [forEach], on one link. *)
Definition highlight (cur : option jsstring) (l : Link) : Link :=
  {| href := href l;
     active := match href l with
               | Some h => strictEq h (HASH :: toString cur)
               | None => false
               end |}.

(** The scroll listener. *)
Definition onScroll (navbarHeight : Z) (scrollY : Q)
           (sections : list Section_) (links : list Link) : list Link :=
  map (highlight (currentSection navbarHeight scrollY sections)) links.

(** Sections laid out one under the other: each starts where the one before
    ends. *)
Fixpoint stacked (l : list Section_) : Prop :=
  match l with
  | a :: (b :: _) as t =>
      (0 <= offsetHeight a)%Z /\
      offsetTop b = (offsetTop a + offsetHeight a)%Z /\ stacked t
  | _ => True
  end.

(** Where a click on a navigation link scrolls to, line 57. *)
Definition targetOffset (navbarHeight : Z) (targetSection : Section_) : Z :=
  (offsetTop targetSection - navbarHeight - 20)%Z.

End ScrollSpy.

(** ** Fading elements in when they come into view (lines 116-132) *)
Module FadeIn.

(** Whether the opacity of each observed element is '1'; the elements are
    numbered in the order of [querySelectorAll]. *)
Definition State := nat -> bool.

(** Lines 127-132: every observed element starts at opacity '0'. *)
Definition hidden : State := fun _ => false.

Record Entry := { target : nat; isIntersecting : bool }.

(** The callback of the observer on one batch of entries. *)
Definition callback (entries : list Entry) (st : State) : State :=
  fold_left
    (fun s entry =>
       if isIntersecting entry
       then fun e => if e =? target entry then true else s e
       else s)
    entries st.

Definition callbacks (batches : list (list Entry)) (st : State) : State :=
  fold_left (fun s entries => callback entries s) batches st.

End FadeIn.

(** A page of two sections, one under the other, for examples. *)
Definition homeSection : ScrollSpy.Section_ :=
  {| ScrollSpy.offsetTop := 0; ScrollSpy.offsetHeight := 500;
     ScrollSpy.idAttr := Some (str "home") |}.

Definition aboutSection : ScrollSpy.Section_ :=
  {| ScrollSpy.offsetTop := 500; ScrollSpy.offsetHeight := 700;
     ScrollSpy.idAttr := Some (str "about") |}.

(** * Properties *)

(** ** Strings *)

Lemma trimStart_head (s : jsstring) :
  trimStart s = [] \/
  exists c t, trimStart s = c :: t /\ isWhiteSpace c = false.
Proof.
  induction s as [|c s IH]; simpl.
  - now left.
  - destruct (isWhiteSpace c) eqn:E; [exact IH|].
    right. now exists c, s.
Qed.

Lemma trimEnd_cons_keep (c : N) (s : jsstring) :
  isWhiteSpace c = false -> trimEnd (c :: s) = c :: trimEnd s.
Proof.
  intros E. simpl. rewrite E. now destruct (trimEnd s).
Qed.

Lemma trimStart_idem (s : jsstring) : trimStart (trimStart s) = trimStart s.
Proof.
  destruct (trimStart_head s) as [->|(c & t & -> & E)]; simpl; [easy|].
  now rewrite E.
Qed.

Lemma trimEnd_idem (s : jsstring) : trimEnd (trimEnd s) = trimEnd s.
Proof.
  induction s as [|c s IH]; simpl; [easy|].
  destruct (trimEnd s) as [|d t] eqn:E.
  - destruct (isWhiteSpace c) eqn:W; simpl; [easy|]. now rewrite W.
  - change (trimEnd (c :: d :: t)) with
      (match trimEnd (d :: t) with
       | [] => if isWhiteSpace c then [] else [c]
       | u => c :: u
       end).
    now rewrite IH.
Qed.

Lemma trim_idem (s : jsstring) : trim (trim s) = trim s.
Proof.
  unfold trim.
  destruct (trimStart_head s) as [E0|(c & t & E0 & E)]; rewrite E0.
  - reflexivity.
  - rewrite (trimEnd_cons_keep c t E). cbn [trimStart]. rewrite E.
    rewrite <- (trimEnd_cons_keep c t E). apply trimEnd_idem.
Qed.

(** [trim] takes white space, and nothing else, off both ends. *)
Lemma trimStart_prefix (s : jsstring) :
  exists a, s = a ++ trimStart s /\ forallb isWhiteSpace a = true.
Proof.
  induction s as [|c s (a & E & W)]; simpl.
  - now exists [].
  - destruct (isWhiteSpace c) eqn:C.
    + exists (c :: a). simpl. rewrite C, W. split; [congruence | reflexivity].
    + now exists [].
Qed.

Lemma trimEnd_suffix (s : jsstring) :
  exists b, s = trimEnd s ++ b /\ forallb isWhiteSpace b = true.
Proof.
  induction s as [|c s (b & E & W)]; simpl.
  - now exists [].
  - destruct (trimEnd s) as [|d t].
    + simpl in E. subst s. destruct (isWhiteSpace c) eqn:C.
      * exists (c :: b). simpl. now rewrite C, W.
      * now exists b.
    + exists b. split; [|exact W]. simpl. now rewrite E at 1.
Qed.

Lemma trimEnd_last (s : jsstring) :
  trimEnd s = [] \/
  exists t c, trimEnd s = t ++ [c] /\ isWhiteSpace c = false.
Proof.
  induction s as [|c s IH]; simpl; [now left|].
  destruct (trimEnd s) as [|d t].
  - destruct (isWhiteSpace c) eqn:C; [now left|].
    right. now exists [], c.
  - right. destruct IH as [IH|(u & e & E & W)]; [discriminate|].
    exists (c :: u), e. simpl. now rewrite E.
Qed.

Lemma trim_decompose (s : jsstring) :
  exists a b,
    s = a ++ trim s ++ b /\
    forallb isWhiteSpace a = true /\ forallb isWhiteSpace b = true.
Proof.
  destruct (trimStart_prefix s) as (a & Ea & Wa).
  destruct (trimEnd_suffix (trimStart s)) as (b & Eb & Wb).
  exists a, b. unfold trim. now rewrite <- Eb.
Qed.

(** ** The regular expression *)

Module RegExpFacts.
Import RegExp.

Lemma plusSet_spec p (s : jsstring) : forall i (k : Continuation),
  plusSet p i s k = true <->
  exists a r, a <> [] /\ forallb p a = true /\ s = a ++ r /\
              k (i + List.length a) r = true.
Proof.
  induction s as [|c s IH]; intros i k; simpl.
  - split; [discriminate|].
    intros (a & r & Ha & _ & E & _). destruct a; [easy | discriminate].
  - rewrite andb_true_iff, orb_true_iff, IH. split.
    + intros [Hc [(a & r & Ha & Hp & E & Hk) | Hk]].
      * exists (c :: a), r. simpl. rewrite Hc, Hp, E.
        repeat split; try easy.
        now rewrite <- plus_n_Sm.
      * exists [c], s. simpl. rewrite Hc.
        repeat split; try easy.
        now rewrite Nat.add_1_r.
    + intros (a & r & Ha & Hp & E & Hk).
      destruct a as [|d a]; [easy|]. simpl in *.
      injection E as -> ->.
      apply andb_true_iff in Hp as [Hd Hp]. split; [exact Hd|].
      destruct a as [|e a].
      * right. simpl. now rewrite Nat.add_1_r in Hk.
      * left. exists (e :: a), r. repeat split; try easy.
        now rewrite <- plus_n_Sm in Hk.
Qed.

Lemma charSet_eq_spec (c0 : N) i (s : jsstring) (k : Continuation) :
  charSet (N.eqb c0) i s k = true <->
  exists r, s = c0 :: r /\ k (S i) r = true.
Proof.
  destruct s as [|c s]; simpl.
  - split; [discriminate | now intros (r & E & _)].
  - rewrite andb_true_iff, N.eqb_eq. split.
    + intros [-> Hk]. now exists s.
    + intros (r & E & Hk). injection E as -> ->. easy.
Qed.

Lemma assertEnd_spec i (s : jsstring) :
  assertEnd i s accept = true <-> s = [].
Proof. destruct s; simpl; split; easy. Qed.

Lemma existsb_seq_false (f : nat -> bool) (n a : nat) :
  (forall i, a <= i -> f i = false) -> existsb f (List.seq a n) = false.
Proof.
  revert a. induction n as [|n IH]; intros a H; simpl; [easy|].
  rewrite H by lia. apply IH. intros i Hi. apply H. lia.
Qed.

(** A pattern that starts with [^] can only match from index 0. *)
Lemma test_anchored (m : Matcher) (s : jsstring) :
  test (seq assertStart m) s = m 0 s accept.
Proof.
  unfold test. simpl.
  rewrite existsb_seq_false; [apply orb_false_r|].
  intros i Hi. unfold seq, assertStart.
  destruct i; [lia | reflexivity].
Qed.

End RegExpFacts.

Lemma emailRegex_spec (s : jsstring) :
  RegExp.test emailRegex s = true <-> matchesEmailRegex s.
Proof.
  unfold emailRegex. rewrite RegExpFacts.test_anchored.
  unfold RegExp.seq, matchesEmailRegex.
  rewrite RegExpFacts.plusSet_spec. split.
  - intros (a & r1 & Ha & Pa & -> & H).
    apply RegExpFacts.charSet_eq_spec in H as (r2 & -> & H).
    apply RegExpFacts.plusSet_spec in H as (b & r3 & Hb & Pb & -> & H).
    apply RegExpFacts.charSet_eq_spec in H as (r4 & -> & H).
    apply RegExpFacts.plusSet_spec in H as (c & r5 & Hc & Pc & -> & H).
    apply RegExpFacts.assertEnd_spec in H as ->.
    exists a, b, c. rewrite app_nil_r. repeat split; assumption.
  - intros (a & b & c & -> & Ha & Hb & Hc & Pa & Pb & Pc).
    exists a, ([AT] ++ b ++ [DOT] ++ c). repeat split; try assumption.
    apply RegExpFacts.charSet_eq_spec. eexists. split; [reflexivity|].
    apply RegExpFacts.plusSet_spec.
    exists b, ([DOT] ++ c). repeat split; try assumption.
    apply RegExpFacts.charSet_eq_spec. eexists. split; [reflexivity|].
    apply RegExpFacts.plusSet_spec.
    exists c, []. rewrite app_nil_r. repeat split; assumption.
Qed.

(** ** The validators *)

Section Validators.

Variable page : Markup.

Lemma get_set_same A (f : Field) (v : A) (r : PerField A) :
  get f (set f v r) = v.
Proof. now destruct f. Qed.

Lemma get_set_other A (f g : Field) (v : A) (r : PerField A) :
  f <> g -> get g (set f v r) = get g r.
Proof. destruct f, g; simpl; congruence. Qed.

Lemma set_set A (f : Field) (v w : A) (r : PerField A) :
  set f v (set f w r) = set f v r.
Proof. now destruct f. Qed.

(** What a validator returns depends on the value of its field only. *)
Lemma onBlur_returns (f : Field) (st : State) :
  snd (onBlur page f st) = validValue f (get f (values st)).
Proof.
  destruct f; unfold validValue, onBlur, validateName, validateEmail,
    validateMessage; cbn [get];
    match goal with |- context [if ?b then _ else _] => destruct b eqn:E end;
    try (first [rewrite negb_true_iff in E | rewrite negb_false_iff in E];
         rewrite E);
    reflexivity.
Qed.

(** What a validator leaves on the page: the reason, shown, on failure;
    the error element hidden on success. *)
Lemma onBlur_displays (f : Field) (st : State) :
  displayed f (fst (onBlur page f st)) =
  if validValue f (get f (values st)) then Valid else Invalid (reason f).
Proof.
  destruct f; unfold validValue, onBlur, validateName, validateEmail,
    validateMessage; cbn [get];
    match goal with |- context [if ?b then _ else _] => destruct b eqn:E end;
    try (first [rewrite negb_true_iff in E | rewrite negb_false_iff in E];
         rewrite E);
    reflexivity.
Qed.

(** A validator writes to the error element of its field and to the
    border of one control, and to nothing else. *)
Lemma onBlur_frame (f : Field) (st : State) :
  let st' := fst (onBlur page f st) in
  values st' = values st /\
  buttonHTML st' = buttonHTML st /\
  buttonDisabled st' = buttonDisabled st /\
  notifications st' = notifications st /\
  styles st' = styles st /\
  created st' = created st /\
  now st' = now st /\
  timers st' = timers st.
Proof.
  destruct f; simpl;
    unfold validateName, validateEmail, validateMessage;
    match goal with |- context [if ?b then _ else _] => destruct b end;
    simpl; repeat split.
Qed.

Lemma onBlur_other_field (f g : Field) (st : State) :
  f <> g ->
  get g (textContent (fst (onBlur page f st))) = get g (textContent st) /\
  get g (shown (fst (onBlur page f st))) = get g (shown st).
Proof.
  intros Hfg.
  destruct f; simpl;
    unfold validateName, validateEmail, validateMessage;
    match goal with |- context [if ?b then _ else _] => destruct b end;
    simpl; destruct g; simpl; try congruence; split; reflexivity.
Qed.

Lemma onBlur_other_border (f h : Field) (st : State) :
  h <> groupInput page f ->
  get h (borderColor (fst (onBlur page f st))) = get h (borderColor st).
Proof.
  intros Hh.
  destruct f; simpl;
    unfold validateName, validateEmail, validateMessage;
    match goal with |- context [if ?b then _ else _] => destruct b end;
    simpl; apply get_set_other; congruence.
Qed.

End Validators.

Section FieldClaims.

Variable page : Markup.

Lemma displayed_other_field (f g : Field) (st : State) :
  f <> g -> displayed g (fst (onBlur page f st)) = displayed g st.
Proof.
  intros Hfg. unfold displayed.
  destruct (onBlur_other_field page st Hfg) as [-> ->]. reflexivity.
Qed.

(** C6.  [validateName] fails, with the reason "Name must be at least 2
    characters long" shown on the name field, when the trimmed value has
    fewer than 2 code units, and succeeds, with the error hidden,
    otherwise. *)
Theorem validateName_trimmed_length (st : State) :
  let n := List.length (trim (get Name (values st))) in
  let (st', ok) := validateName page st in
  ok = negb (n <? 2) /\
  displayed Name st' = (if n <? 2 then Invalid nameTooShort else Valid).
Proof.
  unfold validateName. cbv zeta.
  destruct (List.length (trim (get Name (values st))) <? 2); split; reflexivity.
Qed.

(** C7.  [validateMessage] fails, with the reason "Message must be at
    least 10 characters long" shown on the message field, when the
    trimmed value has fewer than 10 code units, and succeeds, with the
    error hidden, otherwise. *)
Theorem validateMessage_trimmed_length (st : State) :
  let n := List.length (trim (get Message (values st))) in
  let (st', ok) := validateMessage page st in
  ok = negb (n <? 10) /\
  displayed Message st' = (if n <? 10 then Invalid messageTooShort else Valid).
Proof.
  unfold validateMessage. cbv zeta.
  destruct (List.length (trim (get Message (values st))) <? 10); split; reflexivity.
Qed.

Lemma validateForm_unfold (st : State) :
  validateForm page st =
  let st1 := fst (onBlur page Name st) in
  let st2 := fst (onBlur page Email st1) in
  let st3 := fst (onBlur page Message st2) in
  (st3, snd (onBlur page Name st) && snd (onBlur page Email st1)
        && snd (onBlur page Message st2)).
Proof.
  unfold validateForm. simpl.
  destruct (validateName page st) as [st1 b1]. simpl.
  destruct (validateEmail page st1) as [st2 b2]. simpl.
  destruct (validateMessage page st2) as [st3 b3]. reflexivity.
Qed.

Lemma validateForm_returns (st : State) :
  snd (validateForm page st) =
  validValue Name (get Name (values st))
  && validValue Email (get Email (values st))
  && validValue Message (get Message (values st)).
Proof.
  rewrite validateForm_unfold. cbv zeta. cbn [snd].
  rewrite !onBlur_returns.
  destruct (onBlur_frame page Email (fst (onBlur page Name st))) as [-> _].
  destruct (onBlur_frame page Name st) as [-> _].
  reflexivity.
Qed.

(** [validateForm] writes to the error displays only. *)
Lemma validateForm_frame (st : State) :
  let st' := fst (validateForm page st) in
  values st' = values st /\
  buttonHTML st' = buttonHTML st /\
  buttonDisabled st' = buttonDisabled st /\
  notifications st' = notifications st /\
  styles st' = styles st /\
  created st' = created st /\
  now st' = now st /\
  timers st' = timers st.
Proof.
  rewrite validateForm_unfold. cbv zeta. cbn [fst].
  pose proof (onBlur_frame page Name st) as H1.
  pose proof (onBlur_frame page Email (fst (onBlur page Name st))) as H2.
  pose proof (onBlur_frame page Message
                (fst (onBlur page Email (fst (onBlur page Name st))))) as H3.
  cbv zeta in H1, H2, H3.
  destruct H1 as (a1 & a2 & a3 & a4 & a5 & a6 & a7 & a8).
  destruct H2 as (b1 & b2 & b3 & b4 & b5 & b6 & b7 & b8).
  destruct H3 as (c1 & c2 & c3 & c4 & c5 & c6 & c7 & c8).
  repeat split; congruence.
Qed.

(** C2.  [validateForm] returns true exactly when each of the three
    validators returns true on the current value of its field, and it runs
    all three whatever the earlier ones returned: after the call every
    field displays the result of its own validator. *)
Theorem validateForm_all_three (st : State) :
  let (st', ok) := validateForm page st in
  (ok = true <->
     snd (validateName page st) = true /\
     snd (validateEmail page st) = true /\
     snd (validateMessage page st) = true) /\
  (forall f, displayed f st' =
             if snd (onBlur page f st) then Valid else Invalid (reason f)) /\
  values st' = values st.
Proof.
  pose proof (validateForm_returns st) as Hret.
  pose proof (validateForm_frame st) as (Hval & _).
  pose proof (validateForm_unfold st) as Hun.
  destruct (validateForm page st) as [st' ok]. cbn [fst snd] in *.
  injection Hun as Hst _.
  split; [|split; [|exact Hval]].
  - rewrite Hret, !andb_true_iff.
    change (validateName page st) with (onBlur page Name st).
    change (validateEmail page st) with (onBlur page Email st).
    change (validateMessage page st) with (onBlur page Message st).
    rewrite !onBlur_returns. tauto.
  - intros f. rewrite onBlur_returns. subst st'.
    pose (st1 := fst (onBlur page Name st)).
    pose (st2 := fst (onBlur page Email st1)).
    change (displayed f (fst (onBlur page Message st2)) =
            if validValue f (get f (values st))
            then Valid else Invalid (reason f)).
    assert (V1 : values st1 = values st) by apply onBlur_frame.
    assert (V2 : values st2 = values st)
      by (rewrite <- V1; apply onBlur_frame).
    destruct f.
    + rewrite displayed_other_field by discriminate.
      unfold st2. rewrite displayed_other_field by discriminate.
      apply onBlur_displays.
    + rewrite displayed_other_field by discriminate.
      rewrite <- V1. apply onBlur_displays.
    + rewrite <- V2. apply onBlur_displays.
Qed.

(** C8.  Validating field [f] leaves the error message and the error
    visibility of every other field [g] as they were, and it leaves the
    field values, the submit button, the notifications and the pending
    timeouts untouched: the outcome is the returned flag and the display of
    [f] only. *)
Theorem validation_local_to_field (f g : Field) (st : State) :
  f <> g ->
  let st' := fst (onBlur page f st) in
  get g (textContent st') = get g (textContent st) /\
  get g (shown st') = get g (shown st) /\
  displayed g st' = displayed g st /\
  values st' = values st /\
  buttonHTML st' = buttonHTML st /\
  buttonDisabled st' = buttonDisabled st /\
  notifications st' = notifications st /\
  timers st' = timers st /\
  (forall h, h <> groupInput page f ->
             get h (borderColor st') = get h (borderColor st)).
Proof.
  intros Hfg st'.
  destruct (onBlur_other_field page st Hfg) as [Ht Hs].
  destruct (onBlur_frame page f st) as (a1 & a2 & a3 & a4 & _ & _ & _ & a8).
  repeat split; try assumption.
  - now apply displayed_other_field.
  - intros h Hh. now apply onBlur_other_border.
Qed.

(** C10.  Each validator gives on a value [s] what it gives on [trim s]:
    the same flag and the same page, up to the value itself; so
    [validateEmail] accepts "  a@b.co  ". *)
Theorem validators_ignore_outer_whitespace
        (f : Field) (s : jsstring) (st : State) :
  onBlur page f (setValue f (trim s) st) =
    (setValue f (trim s) (fst (onBlur page f (setValue f s st))),
     snd (onBlur page f (setValue f s st))) /\
  snd (validateEmail page (setValue Email (str "  a@b.co  ") st)) = true.
Proof.
  split.
  - destruct f; unfold onBlur, validateName, validateEmail, validateMessage,
      setValue; cbn [values withValues get set ofName ofEmail ofMessage];
      rewrite trim_idem;
      match goal with |- context [if ?b then _ else _] => destruct b end;
      reflexivity.
  - change (validateEmail page) with (onBlur page Email).
    rewrite onBlur_returns. unfold setValue. cbn [values withValues].
    rewrite get_set_same. vm_compute. reflexivity.
Qed.

(** C3, as the code has it.  [validateEmail] succeeds exactly when the
    trimmed value is one or more code units that are neither white space
    nor '@', then '@', then one or more such code units, then '.', then one
    or more such code units; it displays "Please enter a valid email
    address" otherwise.  "a@b.co" is accepted; "a@b", "a b@c.com" and the
    empty string are rejected. *)
Theorem validateEmail_pattern (st : State) :
  (snd (validateEmail page st) = true <->
     matchesEmailRegex (trim (get Email (values st)))) /\
  displayed Email (fst (validateEmail page st)) =
    (if snd (validateEmail page st) then Valid else Invalid emailNotValid) /\
  snd (validateEmail page (setValue Email (str "a@b.co") st)) = true /\
  snd (validateEmail page (setValue Email (str "a@b") st)) = false /\
  snd (validateEmail page (setValue Email (str "a b@c.com") st)) = false /\
  snd (validateEmail page (setValue Email [] st)) = false.
Proof.
  change (validateEmail page) with (onBlur page Email).
  rewrite onBlur_displays, !onBlur_returns.
  unfold setValue. cbn [values withValues]. rewrite !get_set_same.
  split; [apply emailRegex_spec|].
  split; [reflexivity|].
  repeat split; vm_compute; reflexivity.
Qed.

End FieldClaims.

(** ** Submission and notifications *)

Section SubmissionClaims.

Variable page : Markup.

Lemma onSubmit_unfold (st : State) :
  onSubmit page st =
  if snd (validateForm page st)
  then handleFormSubmission (fst (validateForm page st))
  else fst (validateForm page st).
Proof.
  unfold onSubmit. now destruct (validateForm page st).
Qed.

(** C1.  When [validateForm] returns false the submit listener does what
    [validateForm] does and nothing more: no field value changes, the
    submit button stays as it was, no timeout is set and no notification
    appears, so a submission state that was Idle is Idle afterwards. *)
Theorem submit_invalid_noop (st : State) :
  snd (validateForm page st) = false ->
  let st' := onSubmit page st in
  st' = fst (validateForm page st) /\
  values st' = values st /\
  buttonHTML st' = buttonHTML st /\
  buttonDisabled st' = buttonDisabled st /\
  timers st' = timers st /\
  notifications st' = notifications st /\
  submissionState st' = submissionState st /\
  (submissionState st = Idle -> submissionState st' = Idle).
Proof.
  intros Hinv st'. subst st'. rewrite onSubmit_unfold, Hinv.
  destruct (validateForm_frame page st)
    as (a1 & a2 & a3 & a4 & _ & _ & _ & a8).
  assert (S : submissionState (fst (validateForm page st)) = submissionState st)
    by (unfold submissionState; now rewrite a3, a4).
  repeat split; try assumption. intros I. now rewrite S.
Qed.

Lemma filter_absent (n : nat) (l : list nat) :
  ~ In n l -> filter (fun m => negb (m =? n)) l = l.
Proof.
  induction l as [|m l IH]; simpl; intros H; [reflexivity|].
  destruct (Nat.eqb_spec m n) as [->|_]; simpl.
  - exfalso. apply H. now left.
  - f_equal. apply IH. tauto.
Qed.

Lemma contains_spec (n : nat) (st : State) :
  contains n st = true <-> In n (notifications st).
Proof.
  unfold contains. rewrite existsb_exists. split.
  - intros (m & Hm & E). apply Nat.eqb_eq in E. now subst.
  - intros H. exists n. split; [exact H | apply Nat.eqb_refl].
Qed.

Lemma remove_spec (n m : nat) (st : State) :
  In m (notifications (remove n st)) <-> In m (notifications st) /\ m <> n.
Proof.
  unfold remove. simpl. rewrite filter_In, negb_true_iff, Nat.eqb_neq.
  reflexivity.
Qed.

(** Dismissing a notification that is not attached changes nothing. *)
Lemma dismiss_absent (n : nat) (st : State) :
  ~ In n (notifications st) ->
  onCloseClick n st = st /\ runCallback page (AutoRemove n) st = st.
Proof.
  intros H.
  assert (R : remove n st = st).
  { unfold remove. rewrite (@filter_absent n _ H). now destruct st. }
  split; [exact R|].
  simpl. now destruct (contains n st).
Qed.

(** C9.  With no notification attached, the click listener of a close
    button and the auto-remove timeout both leave the page as it is;
    when the timeout runs it is only taken off the pending timeouts.  The
    timeout of a notification that was closed by hand changes nothing
    either. *)
Theorem dismiss_without_notification (st : State) (n : nat) :
  notifications st = [] ->
  onCloseClick n st = st /\
  runCallback page (AutoRemove n) st = st /\
  (forall i d,
      nth_error (timers st) i = Some {| due := d; callback := AutoRemove n |} ->
      (d <= now st)%N ->
      step page st (Fire i) = Some (withTimers (dropNth i (timers st)) st)) /\
  (forall st0,
      runCallback page (AutoRemove n) (onCloseClick n st0) =
      onCloseClick n st0).
Proof.
  intros Hnone.
  assert (Habs : ~ In n (notifications st)) by (rewrite Hnone; intros []).
  destruct (@dismiss_absent n st Habs) as [Hc Ha].
  split; [exact Hc|]. split; [exact Ha|]. split.
  - intros i d Hi Hd. simpl. rewrite Hi. simpl.
    apply N.leb_le in Hd. rewrite Hd.
    unfold contains. simpl. rewrite Hnone. reflexivity.
  - intros st0. apply dismiss_absent.
    unfold onCloseClick. rewrite remove_spec. tauto.
Qed.

Lemma nth_error_snoc A (l : list A) (x : A) :
  nth_error (l ++ [x]) (List.length l) = Some x.
Proof. induction l; simpl; auto. Qed.

Lemma dropNth_snoc A (l : list A) (x : A) :
  dropNth (List.length l) (l ++ [x]) = l.
Proof. induction l; simpl; congruence. Qed.

(** The timeout of [handleFormSubmission] succeeds in whatever state it
    finds the page: one notification is attached, the form is reset and the
    button is restored. *)
Lemma finishSubmission_effect (originalText : jsstring) (st : State) :
  let st' := runCallback page (FinishSubmission originalText) st in
  notifications st' = notifications st ++ [created st] /\
  (forall f, get f (values st') = defaultValue page f) /\
  buttonHTML st' = originalText /\
  buttonDisabled st' = false /\
  timers st' = timers st ++
               [{| due := now st + 5000; callback := AutoRemove (created st) |}] /\
  submissionState st' = Succeeded.
Proof.
  simpl. repeat split.
  - now intros [].
  - unfold submissionState. simpl. now destruct (notifications st).
Qed.

(** C4.  A submit event on an idle page whose form is valid starts the
    submission: the button is disabled and one timeout is set, due 2000 ms
    later, which cannot run earlier.  When it runs, the page shows exactly
    one new notification, the three fields hold their default values (the
    empty string, by the first hypothesis) and the button is restored.  The
    timeout has no failing branch: it does this in whatever state the page
    is by then. *)
Theorem submission_succeeds (st : State) :
  (forall f, defaultValue page f = []) ->
  submissionState st = Idle ->
  snd (validateForm page st) = true ->
  let k := List.length (timers st) in
  exists st1 st3,
    step page st Submit = Some st1 /\
    submissionState st1 = Submitting /\
    values st1 = values st /\
    notifications st1 = [] /\
    timers st1 = timers st ++
                 [{| due := now st + 2000;
                     callback := FinishSubmission (buttonHTML st) |}] /\
    (forall d, (d < 2000)%N -> run page st1 [Wait d; Fire k] = None) /\
    run page st1 [Wait 2000; Fire k] = Some st3 /\
    submissionState st3 = Succeeded /\
    values st3 = perField [] [] [] /\
    notifications st3 = [created st] /\
    buttonHTML st3 = buttonHTML st /\
    buttonDisabled st3 = false /\
    (forall st2,
        let st4 := runCallback page (FinishSubmission (buttonHTML st)) st2 in
        submissionState st4 = Succeeded /\
        values st4 = perField [] [] [] /\
        notifications st4 = notifications st2 ++ [created st2]).
Proof.
  intros Hdef Hidle Hvalid k.
  assert (Hen : buttonDisabled st = false /\ notifications st = []).
  { unfold submissionState in Hidle.
    destruct (buttonDisabled st); [discriminate|].
    now destruct (notifications st). }
  destruct Hen as [Hen Hno].
  destruct (validateForm_frame page st)
    as (a1 & a2 & a3 & a4 & a5 & a6 & a7 & a8).
  set (v := fst (validateForm page st)) in *.
  exists (handleFormSubmission v).
  eexists.
  split.
  { simpl. rewrite Hen, onSubmit_unfold, Hvalid. reflexivity. }
  split; [reflexivity|].
  split; [exact a1|].
  split; [simpl; congruence|].
  split; [simpl; now rewrite a8, a7, a2|].
  split.
  { intros d Hd. simpl. rewrite a8. unfold k.
    rewrite nth_error_snoc. simpl.
    rewrite a7. destruct (N.leb_spec (now st + 2000) (now st + d)); [lia|].
    reflexivity. }
  split.
  { simpl. rewrite a8. unfold k. rewrite nth_error_snoc. simpl.
    rewrite a7, N.leb_refl, dropNth_snoc. reflexivity. }
  simpl. rewrite a4, a6, a2, Hno, !Hdef.
  repeat split;
    match goal with
    | |- submissionState
           (withButton ?o false (reset page (showSuccessMessage ?x))) = _ =>
        apply (finishSubmission_effect o x)
    end.
Qed.

End SubmissionClaims.

(** ** Notifications on reachable pages *)

Section Reachability.

Variable page : Markup.

Lemma In_dropNth A (x y : A) (l : list A) : forall i,
  In x l -> nth_error l i = Some y -> x <> y -> In x (dropNth i l).
Proof.
  induction l as [|z l IH]; intros i Hin Hnth Hne; [destruct Hin|].
  destruct i as [|i]; simpl in *.
  - injection Hnth as ->. destruct Hin as [->|Hin]; [congruence | exact Hin].
  - destruct Hin as [->|Hin]; [now left | right; eauto].
Qed.

Lemma notificationsKept_same (st st' : State) :
  notifications st' = notifications st ->
  created st' = created st ->
  now st' = now st ->
  (forall t, In t (timers st) -> In t (timers st')) ->
  notificationsKept st -> notificationsKept st'.
Proof.
  intros Hn Hc Hw Ht [Hnd Hall]. unfold notificationsKept.
  rewrite Hn, Hc, Hw. split; [exact Hnd|].
  intros n Hin. destruct (Hall n Hin) as (Hlt & d & Hd & Hpend).
  split; [exact Hlt|]. exists d. auto.
Qed.

Lemma notificationsKept_remove (n : nat) (st : State) :
  notificationsKept st -> notificationsKept (remove n st).
Proof.
  intros [Hnd Hall]. split.
  - simpl. now apply NoDup_filter.
  - intros m Hm. apply remove_spec in Hm as [Hm _]. exact (Hall m Hm).
Qed.

Lemma notificationsKept_showSuccessMessage (st : State) :
  notificationsKept st -> notificationsKept (showSuccessMessage st).
Proof.
  intros [Hnd Hall]. split; simpl.
  - apply NoDup_app.
    + exact Hnd.
    + repeat constructor. intros [].
    + intros n Hn [E|[]]. destruct (Hall n Hn) as [Hlt _]. lia.
  - intros n Hn. apply in_app_or in Hn as [Hn|[E|[]]].
    + destruct (Hall n Hn) as (Hlt & d & Hd & Hpend).
      split; [lia|]. exists d. split; [exact Hd|].
      apply in_or_app. now left.
    + subst n. split; [lia|]. exists (now st + 5000)%N. split; [lia|].
      apply in_or_app. right. now left.
Qed.

(** Every event keeps the notifications in order. *)
Lemma step_notificationsKept (st st' : State) (e : Event) :
  notificationsKept st -> step page st e = Some st' -> notificationsKept st'.
Proof.
  intros Inv Hstep. destruct e as [f v|f| |d|i|n]; simpl in Hstep.
  - injection Hstep as <-. exact Inv.
  - injection Hstep as <-.
    destruct (onBlur_frame page f st) as (_ & _ & _ & a4 & _ & a6 & a7 & a8).
    apply notificationsKept_same with (st := st); auto. now rewrite a8.
  - destruct (buttonDisabled st); [discriminate|]. injection Hstep as <-.
    destruct (validateForm_frame page st)
      as (_ & _ & _ & a4 & _ & a6 & a7 & a8).
    rewrite onSubmit_unfold. destruct (snd (validateForm page st)).
    + apply notificationsKept_same with (st := st); simpl; auto.
      intros t Ht. apply in_or_app. left. now rewrite a8.
    + apply notificationsKept_same with (st := st); auto. now rewrite a8.
  - injection Hstep as <-. destruct Inv as [Hnd Hall]. split; [exact Hnd|].
    intros n Hn. destruct (Hall n Hn) as (Hlt & d0 & Hd & Hpend).
    split; [exact Hlt|]. exists d0. simpl. split; [lia | exact Hpend].
  - destruct (nth_error (timers st) i) as [t|] eqn:Hnth; [|discriminate].
    destruct (due t <=? now st)%N; [|discriminate]. injection Hstep as <-.
    destruct Inv as [Hnd Hall].
    destruct t as [dt [originalText|n]]; cbn [callback runCallback].
    + apply notificationsKept_same
        with (st := showSuccessMessage (withTimers (dropNth i (timers st)) st));
        auto.
      apply notificationsKept_showSuccessMessage. split; [exact Hnd|].
      intros n Hn. destruct (Hall n Hn) as (Hlt & d & Hd & Hpend).
      split; [exact Hlt|]. exists d. split; [exact Hd|].
      simpl. eapply In_dropNth; [exact Hpend | exact Hnth | discriminate].
    + assert (K : notificationsKept
                    (remove n (withTimers (dropNth i (timers st)) st))).
      { split.
        - simpl. now apply NoDup_filter.
        - intros m Hm. apply remove_spec in Hm as [Hm Hne]. simpl in Hm.
          destruct (Hall m Hm) as (Hlt & d & Hd & Hpend).
          split; [exact Hlt|]. exists d. split; [exact Hd|].
          simpl. eapply In_dropNth; [exact Hpend | exact Hnth | congruence]. }
      destruct (contains n (withTimers (dropNth i (timers st)) st)) eqn:C;
        [exact K|].
      assert (Habs : ~ In n (notifications
                               (withTimers (dropNth i (timers st)) st))).
      { rewrite <- contains_spec, C. discriminate. }
      destruct (@dismiss_absent page n _ Habs) as [R _].
      unfold onCloseClick in R. now rewrite R in K.
  - destruct (contains n st); [|discriminate]. injection Hstep as <-.
    now apply notificationsKept_remove.
Qed.

Lemma run_notificationsKept (es : list Event) : forall st st',
  notificationsKept st -> run page st es = Some st' -> notificationsKept st'.
Proof.
  induction es as [|e es IH]; intros st st' Inv Hrun; simpl in Hrun.
  - injection Hrun as <-. exact Inv.
  - destruct (step page st e) as [st1|] eqn:Hstep; [|discriminate].
    apply (IH st1 st'); [|exact Hrun].
    exact (step_notificationsKept e Inv Hstep).
Qed.

Lemma loaded_notificationsKept (st : State) :
  loaded st -> notificationsKept st.
Proof.
  intros (Hn & _ & _). unfold notificationsKept. rewrite Hn.
  split; [constructor | intros n []].
Qed.

(** C5, as the code has it.  On every reachable page the attached
    notifications are distinct nodes, each with its own auto-remove timeout
    pending and due within 5000 ms; [showSuccessMessage] attaches a fresh
    node after the ones already attached and removes none, so the number
    attached grows by exactly one. *)
Theorem notifications_accumulate (st : State) :
  reachable page st ->
  NoDup (notifications st) /\
  (forall n, In n (notifications st) ->
             exists d, (d <= now st + 5000)%N /\
                       In {| due := d; callback := AutoRemove n |} (timers st)) /\
  ~ In (created st) (notifications st) /\
  notifications (showSuccessMessage st) = notifications st ++ [created st] /\
  List.length (notifications (showSuccessMessage st)) =
    S (List.length (notifications st)).
Proof.
  intros (st0 & es & Hload & Hrun).
  pose proof (run_notificationsKept es (loaded_notificationsKept Hload) Hrun)
    as [Hnd Hall].
  split; [exact Hnd|]. split; [|split; [|split]].
  - intros n Hn. now destruct (Hall n Hn).
  - intros Hin. destruct (Hall _ Hin) as [Hlt _]. lia.
  - reflexivity.
  - simpl. rewrite length_app. simpl. lia.
Qed.

End Reachability.

(** ** The scenarios of the specification *)

(** C3 as the specification words it fails: "a@b@c.d" is non-space
    characters, '@', non-space characters, '.', non-space characters, and
    [validateEmail] rejects it, because no segment of [emailRegex] may hold
    an '@'. *)
Lemma validateEmail_rejects_inner_at :
  ~ (snd (validateEmail plainPage (freshState [] (str "a@b@c.d") [])) = true
     <-> matchesSpecPattern (str "a@b@c.d")).
Proof.
  intros [_ H].
  assert (M : matchesSpecPattern (str "a@b@c.d")).
  { exists (str "a"), (str "b@c"), (str "d").
    repeat split; try discriminate; reflexivity. }
  specialize (H M). vm_compute in H. discriminate.
Qed.

(** C5 as the specification words it fails: after a second submission that
    completes while the first notification is still attached, two
    notifications are attached. *)
Lemma two_notifications_attached :
  ~ (reachable plainPage afterSubmitTwice ->
     List.length (notifications afterSubmitTwice) <= 1).
Proof.
  intros H.
  assert (R : reachable plainPage afterSubmitTwice).
  { exists validForm, submitTwice. split; [repeat split|].
    vm_compute. reflexivity. }
  specialize (H R). vm_compute in H. lia.
Qed.

Lemma notifications_accumulate_witness :
  reachable plainPage afterSubmitTwice /\
  NoDup (notifications afterSubmitTwice).
Proof.
  assert (R : reachable plainPage afterSubmitTwice).
  { exists validForm, submitTwice. split; [repeat split|].
    vm_compute. reflexivity. }
  split; [exact R|].
  exact (proj1 (notifications_accumulate R)).
Defined.

Lemma submit_invalid_noop_witness :
  snd (validateForm plainPage invalidForm) = false /\
  values (onSubmit plainPage invalidForm) = values invalidForm /\
  submissionState (onSubmit plainPage invalidForm) = Idle.
Proof.
  assert (H : snd (validateForm plainPage invalidForm) = false)
    by (vm_compute; reflexivity).
  split; [exact H|].
  destruct (submit_invalid_noop plainPage invalidForm H)
    as (_ & Hv & _ & _ & _ & _ & _ & Hidle).
  split; [exact Hv | apply Hidle; reflexivity].
Defined.

Lemma validation_local_to_field_witness :
  Name <> Email /\
  displayed Email (fst (onBlur plainPage Name invalidForm)) =
  displayed Email invalidForm.
Proof.
  assert (H : Name <> Email) by discriminate.
  split; [exact H|].
  exact (proj1 (proj2 (proj2
           (validation_local_to_field plainPage invalidForm H)))).
Defined.

Lemma dismiss_without_notification_witness :
  notifications validForm = [] /\
  onCloseClick 0 validForm = validForm /\
  runCallback plainPage (AutoRemove 0) validForm = validForm.
Proof.
  assert (H : notifications validForm = []) by reflexivity.
  split; [exact H|].
  destruct (dismiss_without_notification plainPage validForm 0 H)
    as (Hc & Ha & _).
  split; [exact Hc | exact Ha].
Defined.

Lemma submission_succeeds_witness :
  (forall f, defaultValue plainPage f = []) /\
  submissionState validForm = Idle /\
  snd (validateForm plainPage validForm) = true /\
  exists st1 st3,
    step plainPage validForm Submit = Some st1 /\
    submissionState st1 = Submitting /\
    run plainPage st1 [Wait 2000; Fire 0] = Some st3 /\
    submissionState st3 = Succeeded /\
    values st3 = perField [] [] [] /\
    notifications st3 = [0].
Proof.
  assert (H1 : forall f, defaultValue plainPage f = []) by reflexivity.
  assert (H2 : submissionState validForm = Idle) by reflexivity.
  assert (H3 : snd (validateForm plainPage validForm) = true)
    by (vm_compute; reflexivity).
  split; [exact H1|]. split; [exact H2|]. split; [exact H3|].
  destruct (submission_succeeds plainPage validForm H1 H2 H3)
    as (st1 & st3 & a & b & _ & _ & _ & _ & c & d & e & f & _).
  exists st1, st3. repeat split; assumption.
Defined.

(** The invalid scenario: three distinct reasons, all displayed by one
    call of [validateForm], which returns false. *)
Example invalid_scenario :
  let (st', ok) := validateForm plainPage invalidForm in
  ok = false /\
  displayed Name st' = Invalid nameTooShort /\
  displayed Email st' = Invalid emailNotValid /\
  displayed Message st' = Invalid messageTooShort.
Proof. vm_compute. repeat split. Qed.

(** The valid scenario, event by event. *)
Example valid_scenario :
  option_map (fun st => (submissionState st, values st, notifications st))
             (run plainPage validForm [Submit; Wait 2000; Fire 0])
  = Some (Succeeded, perField [] [] [], [0]).
Proof. vm_compute. reflexivity. Qed.

(** * Further properties of the contact form *)

Section FormFacts.

Variable page : Markup.

Lemma onBlur_eq (f : Field) (st : State) :
  onBlur page f st =
  if validValue f (get f (values st))
  then (hideError page f st, true)
  else (showError page f (reason f) st, false).
Proof.
  destruct f; unfold onBlur, validateName, validateEmail, validateMessage,
    validValue; cbn [get reason].
  - destruct (List.length (trim (ofName (values st))) <? 2); reflexivity.
  - destruct (RegExp.test emailRegex (trim (ofEmail (values st))));
      reflexivity.
  - destruct (List.length (trim (ofMessage (values st))) <? 10); reflexivity.
Qed.


(** What one call of [validateForm] writes, in terms of the validity of the
    three values. *)
Lemma validateForm_writes (st : State) :
  let v f := validValue f (get f (values st)) in
  let colour f := if v f then plainBorder else errorBorder in
  let text f (t : PerField jsstring) := if v f then t else set f (reason f) t in
  let st' := fst (validateForm page st) in
  textContent st' = text Message (text Email (text Name (textContent st))) /\
  shown st' = perField (negb (v Name)) (negb (v Email)) (negb (v Message)) /\
  borderColor st' =
    set (groupInput page Message) (colour Message)
      (set (groupInput page Email) (colour Email)
         (set (groupInput page Name) (colour Name) (borderColor st))).
Proof.
  cbv zeta. rewrite validateForm_unfold. cbv zeta. rewrite !onBlur_eq.
  destruct (validValue Name (get Name (values st))) eqn:E1;
    cbn [fst snd values showError hideError withTextContent withShown
         withBorderColor];
    destruct (validValue Email (get Email (values st))) eqn:E2;
    cbn [fst snd values showError hideError withTextContent withShown
         withBorderColor];
    destruct (validValue Message (get Message (values st))) eqn:E3;
    repeat split.
Qed.



(** Only a blur or a submit event touches the error displays: typing,
    waiting, a timeout (with its [form.reset()]) and closing a notification
    leave every message, its visibility and every border as they were. *)
Theorem displays_change_on_validation_only (st st' : State) (e : Event) :
  validates e = false ->
  step page st e = Some st' ->
  textContent st' = textContent st /\
  shown st' = shown st /\
  borderColor st' = borderColor st.
Proof.
  intros Hv Hstep. destruct e as [f v|f| |d|i|n]; simpl in Hv, Hstep;
    try discriminate.
  - injection Hstep as <-. repeat split.
  - injection Hstep as <-. repeat split.
  - destruct (nth_error (timers st) i) as [t|]; [|discriminate].
    destruct (due t <=? now st)%N; [|discriminate]. injection Hstep as <-.
    destruct t as [dt [o|n]]; cbn [callback runCallback].
    + repeat split.
    + destruct (contains n _); repeat split.
  - destruct (contains n st); [|discriminate]. injection Hstep as <-.
    repeat split.
Qed.

Lemma validateForm_displays (st : State) (f : Field) :
  displayed f (fst (validateForm page st)) =
  if validValue f (get f (values st)) then Valid else Invalid (reason f).
Proof.
  destruct (validateForm_writes st) as (t & s & _). cbv zeta in t, s.
  unfold displayed. rewrite s, t.
  destruct f;
    destruct (validValue Name (get Name (values st))),
      (validValue Email (get Email (values st))),
      (validValue Message (get Message (values st))); reflexivity.
Qed.

(** A completed submission resets the form without validating it: the
    three fields hold their default values, here empty and so invalid, and
    no field displays an error. *)
Theorem reset_is_not_validated (st : State) :
  (forall f, defaultValue page f = []) ->
  buttonDisabled st = false ->
  snd (validateForm page st) = true ->
  exists st3,
    run page st [Submit; Wait 2000; Fire (List.length (timers st))] = Some st3 /\
    forall f, get f (values st3) = [] /\
              validValue f (get f (values st3)) = false /\
              displayed f st3 = Valid.
Proof.
  intros Hdef Hen Hvalid.
  destruct (validateForm_frame page st)
    as (a1 & a2 & a3 & a4 & a5 & a6 & a7 & a8).
  pose proof (validateForm_displays st) as Hd.
  pose proof (validateForm_returns page st) as Hr.
  rewrite Hvalid in Hr. symmetry in Hr.
  apply andb_true_iff in Hr as [Hr H3]. apply andb_true_iff in Hr as [H1 H2].
  set (v := fst (validateForm page st)) in *.
  set (st3 := runCallback page (FinishSubmission (buttonHTML v))
                (withTimers (timers v)
                   (withNow (now v + 2000) (withButton sendingHTML true v)))).
  exists st3. split.
  - cbn [run step]. rewrite Hen, onSubmit_unfold, Hvalid. fold v.
    cbn [handleFormSubmission setTimeout withButton withTimers withNow timers
         now]. rewrite <- a8, nth_error_snoc. cbn [due].
    rewrite N.leb_refl, dropNth_snoc. reflexivity.
  - intros f.
    assert (E : get f (values st3) = []) by (destruct f; simpl; apply Hdef).
    split; [exact E|]. split.
    + rewrite E. destruct f; reflexivity.
    + change (displayed f st3) with (displayed f v).
      rewrite (Hd f). destruct f; rewrite ?H1, ?H2, ?H3; reflexivity.
Qed.





Lemma step_styles (st st' : State) (e : Event) :
  step page st e = Some st' ->
  created st <= created st' /\ styles st' + created st = styles st + created st'.
Proof.
  intros Hstep. destruct e as [f v|f| |d|i|n]; simpl in Hstep.
  - injection Hstep as <-. simpl. lia.
  - injection Hstep as <-.
    destruct (onBlur_frame page f st) as (_ & _ & _ & _ & a5 & a6 & _).
    rewrite a5, a6. lia.
  - destruct (buttonDisabled st); [discriminate|]. injection Hstep as <-.
    destruct (validateForm_frame page st) as (_ & _ & _ & _ & a5 & a6 & _).
    rewrite onSubmit_unfold. destruct (snd (validateForm page st)); simpl;
      rewrite a5, a6; lia.
  - injection Hstep as <-. simpl. lia.
  - destruct (nth_error (timers st) i) as [t|]; [|discriminate].
    destruct (due t <=? now st)%N; [|discriminate]. injection Hstep as <-.
    destruct t as [dt [o|n]]; cbn [callback runCallback].
    + simpl. lia.
    + destruct (contains n _); simpl; lia.
  - destruct (contains n st); [|discriminate]. injection Hstep as <-.
    simpl. lia.
Qed.

(** Every notification ever created leaves one style element in the head
    of the document, and nothing removes it: along any run the number of
    style elements grows by exactly the number of notifications created,
    whether they were dismissed or not. *)
Theorem style_elements_accumulate (st0 st : State) (es : list Event) :
  run page st0 es = Some st ->
  created st0 <= created st /\
  styles st = styles st0 + (created st - created st0).
Proof.
  revert st0. induction es as [|e es IH]; intros st0 Hrun; simpl in Hrun.
  - injection Hrun as <-. lia.
  - destruct (step page st0 e) as [st1|] eqn:Hstep; [|discriminate].
    destruct (@step_styles st0 st1 e Hstep) as [H1 H2].
    destruct (IH st1 Hrun) as [H3 H4]. lia.
Qed.

Lemma length_filter_remove (n : nat) (l : list nat) :
  NoDup l -> In n l ->
  S (List.length (filter (fun m => negb (m =? n)) l)) = List.length l.
Proof.
  induction 1 as [|x l Hx Hnd IH]; intros Hin; [destruct Hin|].
  simpl. destruct (Nat.eqb_spec x n) as [->|Hne]; simpl.
  - now rewrite filter_absent.
  - destruct Hin as [E|Hin]; [congruence|]. now rewrite IH.
Qed.

(** Dismissing a notification, by its close button or by its timeout,
    detaches that notification and no other: on a reachable page where it is
    attached, the others stay attached and exactly one fewer is visible. *)
Theorem dismiss_removes_only_that (st : State) (n : nat) :
  reachable page st ->
  In n (notifications st) ->
  let st' := onCloseClick n st in
  step page st (ClickClose n) = Some st' /\
  runCallback page (AutoRemove n) st = st' /\
  ~ In n (notifications st') /\
  (forall m, m <> n -> (In m (notifications st') <-> In m (notifications st))) /\
  S (List.length (notifications st')) = List.length (notifications st).
Proof.
  intros (st0 & es & Hload & Hrun) Hin st'.
  pose proof (@run_notificationsKept page es st0 st
                (@loaded_notificationsKept st0 Hload) Hrun) as [Hnd _].
  assert (C : contains n st = true) by (now apply contains_spec).
  split; [simpl; now rewrite C|].
  split; [simpl; now rewrite C|].
  split; [unfold st', onCloseClick; rewrite remove_spec; tauto|].
  split.
  - intros m Hm. unfold st', onCloseClick. rewrite remove_spec. tauto.
  - simpl. now apply length_filter_remove.
Qed.

End FormFacts.

Lemma forallb_notSpaceAt (a : jsstring) :
  forallb notSpaceAt a = true ->
  count_occ N.eq_dec a AT = 0 /\ forallb nonSpace a = true.
Proof.
  induction a as [|c a IH]; simpl; [easy|].
  rewrite andb_true_iff. intros [Hc Ha]. destruct (IH Ha) as [I1 I2].
  unfold notSpaceAt in Hc. apply negb_true_iff, orb_false_iff in Hc as [W E].
  apply N.eqb_neq in E. unfold nonSpace at 1. rewrite W, I2.
  destruct (N.eq_dec c AT); [congruence|]. now split.
Qed.

(** Every address [validateEmail] accepts has, once trimmed, exactly one
    '@', no white space, and at least five code units. *)
Theorem accepted_email_shape (page : Markup) (st : State) :
  snd (validateEmail page st) = true ->
  let e := trim (get Email (values st)) in
  count_occ N.eq_dec e AT = 1 /\
  forallb nonSpace e = true /\
  5 <= List.length e.
Proof.
  intros H. change (validateEmail page) with (onBlur page Email) in H.
  rewrite onBlur_returns in H. apply emailRegex_spec in H.
  destruct H as (a & b & c & E & Ha & Hb & Hc & Pa & Pb & Pc).
  cbv zeta. rewrite E.
  destruct (forallb_notSpaceAt a Pa) as [A1 A2].
  destruct (forallb_notSpaceAt b Pb) as [B1 B2].
  destruct (forallb_notSpaceAt c Pc) as [C1 C2].
  repeat split.
  - rewrite !count_occ_app, A1, B1, C1. reflexivity.
  - rewrite !forallb_app, A2, B2, C2. reflexivity.
  - rewrite !length_app. simpl.
    destruct a; [easy|]. destruct b; [easy|]. destruct c; [easy|].
    simpl. lia.
Qed.

(** * [throttle] *)

Module ThrottleFacts.

Import Throttle.

Section Closure.

Variable A : Type.
Variable wait : N.

Lemma executedFunction_onePending (a : A) (st : State A) :
  onePending st ->
  pending (executedFunction wait a st) =
    [{| handle := nextHandle st; dueAt := (clock st + wait)%N; args := a |}] /\
  timeout (executedFunction wait a st) = Some (nextHandle st) /\
  invoked (executedFunction wait a st) = invoked st /\
  clock (executedFunction wait a st) = clock st.
Proof.
  intros [E|(p & E & T)]; unfold executedFunction.
  - destruct (timeout st); simpl; rewrite E; repeat split.
  - rewrite T. simpl. rewrite E. simpl. rewrite Nat.eqb_refl. repeat split.
Qed.

Lemma step_onePending (st st' : State A) (e : Event A) :
  onePending st -> step wait st e = Some st' -> onePending st'.
Proof.
  intros Inv Hstep. destruct e as [a|d|h]; simpl in Hstep.
  - injection Hstep as <-.
    destruct (executedFunction_onePending a Inv) as (P & T & _).
    right. eexists. split; [exact P | exact T].
  - injection Hstep as <-. exact Inv.
  - destruct Inv as [E|(p & E & T)]; rewrite E in Hstep; simpl in Hstep;
      [discriminate|].
    destruct (handle p =? h) eqn:Hh; [|discriminate].
    destruct (dueAt p <=? clock st)%N; [|discriminate]. injection Hstep as <-.
    left. unfold later. simpl. now destruct (timeout st).
Qed.

(** However the calls, the waits and the timeouts interleave, the closure
    keeps at most one timeout pending, the one its variable [timeout] names:
    every call clears the timeout of the call before. *)
Theorem throttle_one_pending (h : nat) (t : N) (es : list (Event A))
        (st : State A) :
  run wait (fresh A h t) es = Some st ->
  onePending st /\ List.length (pending st) <= 1.
Proof.
  assert (G : forall st0, onePending st0 -> run wait st0 es = Some st ->
                          onePending st).
  { induction es as [|e es IH]; intros st0 I0 Hrun; simpl in Hrun.
    - injection Hrun as <-. exact I0.
    - destruct (step wait st0 e) as [st1|] eqn:Hstep; [|discriminate].
      apply (IH st1); [|exact Hrun].
      exact (@step_onePending st0 st1 e I0 Hstep). }
  intros Hrun.
  assert (I : onePending st) by (apply (G (fresh A h t)); [now left | exact Hrun]).
  split; [exact I|].
  destruct I as [->|(p & -> & _)]; simpl; lia.
Qed.

Lemma run_waits (st st' : State A) (es : list (Event A)) :
  forallb (fun e => negb (isFire e) && negb (isCall e)) es = true ->
  run wait st es = Some st' ->
  pending st' = pending st /\ timeout st' = timeout st /\
  invoked st' = invoked st /\ clock st' = (clock st + elapsed es)%N.
Proof.
  revert st. induction es as [|e es IH]; intros st Hes Hrun; simpl in *.
  - injection Hrun as <-. repeat split. lia.
  - apply andb_true_iff in Hes as [He Hes].
    destruct e as [a|d|h]; simpl in He; try discriminate.
    simpl in Hrun. destruct (IH _ Hes Hrun) as (P & T & I & C).
    simpl in P, T, I, C. repeat split; try assumption. lia.
Qed.

Lemma run_no_fire (st st' : State A) (es : list (Event A)) :
  forallb (fun e => negb (isFire e)) es = true ->
  onePending st ->
  run wait st es = Some st' ->
  onePending st' /\ invoked st' = invoked st.
Proof.
  revert st. induction es as [|e es IH]; intros st Hes Inv Hrun; simpl in *.
  - injection Hrun as <-. now split.
  - apply andb_true_iff in Hes as [He Hes].
    destruct (step wait st e) as [st1|] eqn:Hstep; [|discriminate].
    destruct (IH st1 Hes (@step_onePending st st1 e Inv Hstep) Hrun)
      as [I1 I2].
    split; [exact I1|]. rewrite I2.
    destruct e as [a|d|h]; simpl in He, Hstep; try discriminate;
      injection Hstep as <-; [|reflexivity].
    now destruct (executedFunction_onePending a Inv) as (_ & _ & I & _).
Qed.

(** [throttle] debounces.  After any calls and waits without a timeout
    running, of which the last call is [a] and is followed by waits only,
    [func] has not run at all and one timeout is pending, for [a], due [wait]
    ms after that last call.  No timeout can run before; when it runs, [func]
    is called once, with [a], and nothing is pending. *)
Theorem throttle_debounces (st0 st : State A)
        (es1 es2 : list (Event A)) (a : A) :
  onePending st0 ->
  forallb (fun e => negb (isFire e)) es1 = true ->
  forallb (fun e => negb (isFire e) && negb (isCall e)) es2 = true ->
  run wait st0 (es1 ++ Call a :: es2) = Some st ->
  invoked st = invoked st0 /\
  exists p,
    pending st = [p] /\ args p = a /\
    (dueAt p + elapsed es2 = clock st + wait)%N /\
    ((elapsed es2 < wait)%N -> forall h, step wait st (Fire h) = None) /\
    ((wait <= elapsed es2)%N ->
     exists st', step wait st (Fire (handle p)) = Some st' /\
                 invoked st' = invoked st0 ++ [a] /\ pending st' = []).
Proof.
  intros I0 H1 H2 Hrun.
  assert (Hsplit : exists st1, run wait st0 es1 = Some st1 /\
                               run wait (executedFunction wait a st1) es2 = Some st).
  { clear I0 H1. revert st0 Hrun.
    induction es1 as [|e es IH]; intros st0 Hrun; simpl in Hrun.
    - exists st0. now split.
    - simpl. destruct (step wait st0 e) as [sx|]; [|discriminate].
      exact (IH sx Hrun). }
  destruct Hsplit as (st1 & R1 & R2).
  destruct (@run_no_fire st0 st1 es1 H1 I0 R1) as [I1 V1].
  destruct (executedFunction_onePending a I1) as (P & T & V & C).
  destruct (@run_waits _ st es2 H2 R2) as (P2 & T2 & V2 & C2).
  split; [congruence|].
  exists {| handle := nextHandle st1; dueAt := (clock st1 + wait)%N; args := a |}.
  split; [congruence|]. split; [reflexivity|].
  split; [simpl; rewrite C2, C; lia|]. split.
  - intros Hlt h. simpl. rewrite P2, P. simpl.
    destruct (nextHandle st1 =? h); [|reflexivity].
    cbn [dueAt]. rewrite C2, C.
    destruct (N.leb_spec (clock st1 + wait) (clock st1 + elapsed es2));
      [lia | reflexivity].
  - intros Hle. simpl. rewrite P2, P. simpl. rewrite Nat.eqb_refl.
    cbn [dueAt]. rewrite C2, C.
    destruct (N.leb_spec (clock st1 + wait) (clock st1 + elapsed es2));
      [|lia].
    eexists. split; [reflexivity|].
    unfold later. simpl.
    destruct (timeout st); simpl; (split; [congruence | reflexivity]).
Qed.

End Closure.

End ThrottleFacts.

(** * The typing effect *)

Module TypeWriterFacts.

Import TypeWriter.

Lemma firstn_S_charAt (s : jsstring) (k : nat) :
  k < List.length s -> firstn (S k) s = firstn k s ++ charAt s k.
Proof.
  revert k. induction s as [|c s IH]; intros k Hk; simpl in Hk; [lia|].
  destruct k as [|k]; [reflexivity|].
  change (c :: firstn (S k) s = c :: (firstn k s ++ charAt s k)).
  f_equal. apply IH. lia.
Qed.

Lemma step_typing (title : jsstring) (t0 : N) (st st' : State) (e : Event) :
  typing title t0 st -> step st e = Some st' -> typing title t0 st'.
Proof.
  intros (Ht & Hi & Hh & Hc & Hd) Hstep.
  destruct e as [d|]; cbn [step] in Hstep.
  - injection Hstep as <-. unfold typing. cbn [text i heroTitle timer clock].
    repeat split; try assumption. intros H1. specialize (Hc H1). lia.
  - destruct (timer st) as [d|]; [|discriminate].
    destruct (N.leb_spec d (clock st)); [|discriminate].
    injection Hstep as <-. unfold typeWriter. cbn [text i heroTitle timer clock].
    rewrite Ht.
    destruct (Nat.ltb_spec (i st) (List.length title)); unfold typing;
      cbn [text i heroTitle timer clock].
    + repeat split; try assumption; try lia.
      rewrite Hh. symmetry. now apply firstn_S_charAt.
    + repeat split; try assumption. lia.
Qed.

(** While the title is typed it always reads a prefix of the original
    title, the first [i] code units; character [k] never shows earlier than
    1000 + 100 (k - 1) ms after the start, and when no timeout is pending the
    whole title is back. *)
Theorem typewriter_shows_prefix (title : jsstring) (t0 : N)
        (es : list Event) (st : State) :
  run (setup title t0) es = Some st ->
  heroTitle st = firstn (i st) title /\
  i st <= List.length title /\
  (1 <= i st -> (t0 + 900 + 100 * N.of_nat (i st) <= clock st)%N) /\
  (timer st = None -> heroTitle st = title).
Proof.
  assert (G : forall st0, typing title t0 st0 -> run st0 es = Some st ->
                          typing title t0 st).
  { induction es as [|e es IH]; intros st0 I0 Hrun; simpl in Hrun.
    - injection Hrun as <-. exact I0.
    - destruct (step st0 e) as [st1|] eqn:Hstep; [|discriminate].
      apply (IH st1); [|exact Hrun].
      exact (@step_typing title t0 st0 st1 e I0 Hstep). }
  intros Hrun.
  assert (I0 : typing title t0 (setup title t0)).
  { unfold typing, setup. simpl. repeat split; try lia. }
  destruct (G _ I0 Hrun) as (Ht & Hi & Hh & Hc & Hd).
  repeat split; try assumption.
  intros Hn. rewrite Hn in Hd. rewrite Hh, Hd. apply firstn_all.
Qed.

Lemma run_app (st : State) (es1 es2 : list Event) :
  run st (es1 ++ es2) =
  match run st es1 with
  | Some st1 => run st1 es2
  | None => None
  end.
Proof.
  revert st. induction es1 as [|e es IH]; intros st; simpl; [reflexivity|].
  destruct (step st e); [apply IH | reflexivity].
Qed.

Lemma punctual_rest (n : nat) : forall st,
  i st + n = List.length (text st) ->
  heroTitle st = firstn (i st) (text st) ->
  timer st = Some (clock st + 100)%N ->
  exists st',
    run st (List.concat (repeat [Wait 100; Fire] (S n))) = Some st' /\
    heroTitle st' = text st /\ timer st' = None /\
    i st' = List.length (text st) /\
    clock st' = (clock st + 100 * N.of_nat (S n))%N.
Proof.
  induction n as [|n IH]; intros st Hi Hh Ht.
  - cbn [repeat List.concat app run step]. rewrite Ht. cbn [text i heroTitle timer clock].
    rewrite N.leb_refl. unfold typeWriter. cbn [i text].
    destruct (Nat.ltb_spec (i st) (List.length (text st))); [lia|].
    eexists. split; [reflexivity|]. simpl.
    repeat split; try lia.
    rewrite Hh. replace (i st) with (List.length (text st)) by lia.
    apply firstn_all.
  - change (List.concat (repeat [Wait 100; Fire] (S (S n))))
      with ([Wait 100; Fire] ++ List.concat (repeat [Wait 100; Fire] (S n))).
    rewrite run_app. cbn [run step]. rewrite Ht. cbn [text i heroTitle timer clock].
    rewrite N.leb_refl. unfold typeWriter. cbn [i text].
    destruct (Nat.ltb_spec (i st) (List.length (text st))); [|lia].
    match goal with
    | |- context [run ?s (List.concat _)] => destruct (IH s) as (st' & R & a & b & c & d)
    end; cbn [i text heroTitle timer clock]; try lia.
    + rewrite Hh. symmetry. now apply firstn_S_charAt.
    + reflexivity.
    + exists st'. split; [exact R|]. cbn [i text heroTitle timer clock] in *.
      repeat split; try assumption. lia.
Qed.

(** With every timeout running the moment it is due, the title is whole
    again after one callback per code unit and one more that finds nothing
    left to type, 1000 + 100 n ms after the start for a title of n code
    units; then no timeout is pending and nothing more happens. *)
Theorem typewriter_completes (title : jsstring) (t0 : N) :
  exists st,
    run (setup title t0) (punctual (List.length title)) = Some st /\
    heroTitle st = title /\
    i st = List.length title /\
    timer st = None /\
    clock st = (t0 + 1000 + 100 * N.of_nat (List.length title))%N /\
    step st Fire = None.
Proof.
  unfold punctual. destruct title as [|c title].
  - eexists. split.
    + cbn [List.length repeat List.concat app run step setup timer clock].
      rewrite N.leb_refl. reflexivity.
    + simpl. repeat split. lia.
  - set (t := c :: title).
    set (st1 := {| text := t; i := 1; heroTitle := [c];
                   timer := Some (t0 + 1000 + 100)%N;
                   clock := (t0 + 1000)%N |}).
    destruct (@punctual_rest (List.length title) st1) as (st' & R & a & b & d & e).
    + reflexivity.
    + reflexivity.
    + reflexivity.
    + exists st'. split.
      * rewrite run_app. cbn [run step setup timer clock].
        rewrite N.leb_refl. exact R.
      * cbn [text clock] in *. repeat split; try assumption.
        simpl. now rewrite b.
Qed.

End TypeWriterFacts.

(** * The mobile menu *)

Module NavigationFacts.

Import Navigation.

Lemma click_kept (t : Target) (st : State) :
  hamburgerActive st = navMenuActive st ->
  hamburgerActive (click t st) = navMenuActive (click t st).
Proof.
  intros H. destruct st as [a b]. simpl in H. subst b.
  destruct t as [|[]|[]]; reflexivity.
Qed.

Lemma clicks_toggles (ts : list Target) : forall st n,
  hamburgerActive st = navMenuActive st ->
  navMenuActive st = Nat.odd n ->
  navMenuActive (clicks ts st) = Nat.odd (toggles ts n) /\
  hamburgerActive (clicks ts st) = navMenuActive (clicks ts st).
Proof.
  induction ts as [|t ts IH]; intros st n Hs Hn; [now split|].
  destruct st as [a b]. simpl in Hs, Hn. subst a b.
  destruct t as [|[]|[]]; simpl; apply IH; simpl;
    rewrite ?Nat.odd_succ, <- ?Nat.negb_odd; reflexivity.
Qed.

(** The hamburger and the menu open and close together: after any clicks
    on a page where the menu starts closed both carry 'active' or neither
    does, and the menu is open exactly when the hamburger was clicked an odd
    number of times since the last click on a navigation link or outside the
    menu. *)
Theorem menu_follows_hamburger (ts : list Target) :
  let st := clicks ts {| hamburgerActive := false; navMenuActive := false |} in
  hamburgerActive st = navMenuActive st /\
  navMenuActive st = Nat.odd (toggles ts 0).
Proof.
  destruct (@clicks_toggles ts {| hamburgerActive := false;
                                 navMenuActive := false |} 0 eq_refl eq_refl)
    as [H1 H2].
  split; assumption.
Qed.

End NavigationFacts.

(** * The section in view *)

Module ScrollSpyFacts.

Import ScrollSpy.

Section Scroll.

Variable navbarHeight : Z.
Variable scrollY : Q.

Lemma fold_none (sections : list Section_) : forall cur,
  forallb (fun s => negb (inBand navbarHeight scrollY s)) sections = true ->
  fold_left (fun cur s => if inBand navbarHeight scrollY s then idAttr s else cur) sections cur = cur.
Proof.
  induction sections as [|s l IH]; intros cur H; simpl in *; [reflexivity|].
  apply andb_true_iff in H as [Hs Hl]. apply negb_true_iff in Hs.
  rewrite Hs. now apply IH.
Qed.

Lemma current_none (sections : list Section_) :
  forallb (fun s => negb (inBand navbarHeight scrollY s)) sections = true ->
  currentSection navbarHeight scrollY sections = Some [].
Proof. apply fold_none. Qed.

Lemma current_last (pre post : list Section_) (s : Section_) :
  inBand navbarHeight scrollY s = true ->
  forallb (fun s' => negb (inBand navbarHeight scrollY s')) post = true ->
  currentSection navbarHeight scrollY (pre ++ s :: post) = idAttr s.
Proof.
  intros Hs Hpost. unfold currentSection.
  rewrite fold_left_app. simpl. rewrite Hs. now apply fold_none.
Qed.

(** The highlighted section is the last one, in document order, whose band
    holds the scroll position; when no band holds it, [currentSection] is the
    empty string. *)
Theorem current_section_is_last_in_band (sections : list Section_) :
  (forallb (fun s => negb (inBand navbarHeight scrollY s)) sections = true ->
   currentSection navbarHeight scrollY sections = Some []) /\
  (forall pre s post,
      sections = pre ++ s :: post ->
      inBand navbarHeight scrollY s = true ->
      forallb (fun s' => negb (inBand navbarHeight scrollY s')) post = true ->
      currentSection navbarHeight scrollY sections = idAttr s).
Proof.
  split.
  - apply current_none.
  - intros pre s post -> Hs Hpost. now apply current_last.
Qed.

Lemma inBand_bounds (s : Section_) :
  inBand navbarHeight scrollY s = true <->
  (inject_Z (offsetTop s - navbarHeight - 100) <= scrollY)%Q /\
  ~ (inject_Z (offsetTop s - navbarHeight - 100 + offsetHeight s) <= scrollY)%Q.
Proof.
  unfold inBand. cbv zeta.
  rewrite andb_true_iff, negb_true_iff, Qle_bool_iff.
  split; intros [H1 H2]; (split; [exact H1|]).
  - intros H. apply Qle_bool_iff in H. congruence.
  - destruct (Qle_bool _ scrollY) eqn:E; [|reflexivity].
    exfalso. apply H2. now apply Qle_bool_iff.
Qed.

Lemma stacked_tail (a : Section_) (l : list Section_) :
  stacked (a :: l) -> stacked l.
Proof. destruct l; simpl; tauto. Qed.

Lemma stacked_later (l : list Section_) : forall a b,
  stacked (a :: l) -> (0 <= offsetHeight a)%Z -> In b l ->
  (offsetTop a + offsetHeight a <= offsetTop b)%Z /\ stacked (a :: l).
Proof.
  induction l as [|c l IH]; intros a b Hst Ha Hin; [destruct Hin|].
  split; [|exact Hst].
  simpl in Hst. destruct Hst as (_ & Hc & Hst).
  destruct Hin as [->|Hin]; [lia|].
  destruct l as [|d l]; [destruct Hin|].
  assert (Hc0 : (0 <= offsetHeight c)%Z) by (simpl in Hst; tauto).
  destruct (IH c b Hst Hc0 Hin) as [H _]. lia.
Qed.

Lemma stacked_app (pre : list Section_) : forall l,
  stacked (pre ++ l) -> stacked l.
Proof.
  induction pre as [|a pre IH]; intros l H; [exact H|].
  apply IH. exact (stacked_tail _ _ H).
Qed.

Lemma stacked_earlier (pre : list Section_) : forall s post b,
  stacked (pre ++ s :: post) -> In b pre ->
  (offsetTop b + offsetHeight b <= offsetTop s)%Z.
Proof.
  induction pre as [|a pre IH]; intros s post b Hst Hin; [destruct Hin|].
  destruct Hin as [->|Hin].
  - assert (Hb : (0 <= offsetHeight b)%Z).
    { simpl in Hst. destruct (pre ++ s :: post) eqn:E; [|tauto].
      destruct pre; discriminate. }
    apply (stacked_later (pre ++ s :: post) b s Hst Hb).
    apply in_or_app. right. now left.
  - apply (IH s post b); [|exact Hin]. exact (stacked_tail _ _ Hst).
Qed.

(** On sections laid out one under the other the bands do not overlap: at
    most one section holds the scroll position, and that one is the one
    highlighted. *)
Theorem stacked_sections_have_one_in_view
        (pre post : list Section_) (s : Section_) :
  stacked (pre ++ s :: post) ->
  (0 <= offsetHeight s)%Z ->
  inBand navbarHeight scrollY s = true ->
  forallb (fun s' => negb (inBand navbarHeight scrollY s')) (pre ++ post) = true /\
  currentSection navbarHeight scrollY (pre ++ s :: post) = idAttr s.
Proof.
  intros Hst Hs Hin. apply inBand_bounds in Hin as [Hlo Hhi].
  assert (Hpre : forallb (fun s' => negb (inBand navbarHeight scrollY s')) pre = true).
  { apply forallb_forall. intros b Hb. apply negb_true_iff.
    apply not_true_iff_false. intros Hv. apply inBand_bounds in Hv as [_ Hv].
    apply Hv. apply Qle_trans with (2 := Hlo). rewrite <- Zle_Qle.
    pose proof (stacked_earlier pre s post b Hst Hb). lia. }
  assert (Hpost : forallb (fun s' => negb (inBand navbarHeight scrollY s')) post = true).
  { apply forallb_forall. intros b Hb. apply negb_true_iff.
    apply not_true_iff_false. intros Hv. apply inBand_bounds in Hv as [Hv _].
    apply Hhi. apply Qle_trans with (2 := Hv). rewrite <- Zle_Qle.
    destruct (stacked_later post s b (stacked_app pre _ Hst) Hs Hb) as [H _].
    lia. }
  split.
  - rewrite forallb_app, Hpre, Hpost. reflexivity.
  - apply current_last; [|exact Hpost].
    apply inBand_bounds. now split.
Qed.

Lemma strictEq_spec (a b : jsstring) : strictEq a b = true <-> a = b.
Proof.
  unfold strictEq. destruct (list_eq_dec N.eq_dec a b); split; congruence.
Qed.

(** After a scroll event a link is highlighted exactly when its href is
    '#' followed by the id of the section in view, whatever was highlighted
    before; so when no section is in view the links whose href is "#" alone
    are the highlighted ones. *)
Theorem scroll_highlights_by_href
        (sections : list Section_) (links : list Link) :
  let cur := currentSection navbarHeight scrollY sections in
  let links' := onScroll navbarHeight scrollY sections links in
  map href links' = map href links /\
  (forall l, In l links' ->
             (active l = true <-> href l = Some (HASH :: toString cur))) /\
  onScroll navbarHeight scrollY sections links' = links' /\
  (forallb (fun s => negb (inBand navbarHeight scrollY s)) sections = true ->
   forall l, In l links' -> (active l = true <-> href l = Some [HASH])).
Proof.
  cbv zeta. unfold onScroll.
  set (cur := currentSection navbarHeight scrollY sections).
  assert (A : forall l, In l (map (highlight cur) links) ->
              (active l = true <-> href l = Some (HASH :: toString cur))).
  { intros l Hl. apply in_map_iff in Hl as (l0 & <- & _).
    unfold highlight. cbn [href active].
    destruct (href l0) as [h|].
    - rewrite strictEq_spec. split; [intros ->; reflexivity|].
      intros E. now injection E.
    - split; discriminate. }
  split; [|split; [exact A|split]].
  - rewrite map_map. reflexivity.
  - rewrite map_map. apply map_ext. intros l. reflexivity.
  - intros Hnone l Hl. rewrite (A l Hl).
    unfold cur. rewrite (current_none sections Hnone). reflexivity.
Qed.

(** A click on a navigation link scrolls to 20 px above the section, under
    the navigation bar; the band of a section starts 100 px above it.  So the
    position a link scrolls to lies in the band of its own section exactly
    when the section is more than 80 px high. *)
Theorem link_target_is_in_view (s : Section_) :
  inBand navbarHeight (inject_Z (targetOffset navbarHeight s)) s = true <->
  (80 < offsetHeight s)%Z.
Proof.
  unfold inBand, targetOffset. cbv zeta.
  rewrite andb_true_iff, negb_true_iff, Qle_bool_iff, <- Zle_Qle.
  split.
  - intros [_ H]. destruct (Z_lt_le_dec 80 (offsetHeight s)) as [L|L]; [exact L|].
    exfalso. apply not_true_iff_false in H. apply H.
    apply Qle_bool_iff. rewrite <- Zle_Qle. lia.
  - intros H. split; [lia|]. apply not_true_iff_false. intros E.
    apply Qle_bool_iff in E. rewrite <- Zle_Qle in E. lia.
Qed.

End Scroll.

End ScrollSpyFacts.

(** * Fading in *)

Module FadeInFacts.

Import FadeIn.

Lemma callback_spec (entries : list Entry) : forall (st : State) (e : nat),
  callback entries st e = true <->
  st e = true \/
  exists entry, In entry entries /\ target entry = e /\
                isIntersecting entry = true.
Proof.
  unfold callback. induction entries as [|x l IH]; intros st e; simpl.
  - split; [now left | intros [H|(y & [] & _)]; exact H].
  - rewrite IH. destruct (isIntersecting x) eqn:Hx.
    + destruct (Nat.eqb_spec e (target x)) as [->|Hne].
      * split; [|now left]. intros _. right. exists x. now split; [left|].
      * split.
        -- intros [H|(y & Hy & T & I)]; [now left|].
           right. exists y. split; [now right | now split].
        -- intros [H|(y & [<-|Hy] & T & I)]; [now left | congruence |].
           right. exists y. now split.
    + split.
      * intros [H|(y & Hy & T & I)]; [now left|].
        right. exists y. split; [now right | now split].
      * intros [H|(y & [<-|Hy] & T & I)]; [now left | congruence |].
        right. exists y. now split.
Qed.

(** An element is visible after any number of observer callbacks exactly
    when it was visible before or one of the entries reported it as
    intersecting: elements fade in when they first come into view and never
    fade out again. *)
Theorem fade_in_is_one_way (batches : list (list Entry)) (st : State)
        (e : nat) :
  callbacks batches st e = true <->
  st e = true \/
  exists entries entry,
    In entries batches /\ In entry entries /\ target entry = e /\
    isIntersecting entry = true.
Proof.
  unfold callbacks. revert st.
  induction batches as [|b l IH]; intros st; simpl.
  - split; [now left | intros [H|(x & y & [] & _)]; exact H].
  - rewrite IH, callback_spec. split.
    + intros [[H|(y & Hy & T & I)]|(x & y & Hx & Hy & T & I)].
      * now left.
      * right. exists b, y. now repeat split; [left| | |].
      * right. exists x, y. repeat split; try assumption. now right.
    + intros [H|(x & y & [<-|Hx] & Hy & T & I)].
      * left. now left.
      * left. right. exists y. now repeat split.
      * right. exists x, y. now repeat split.
Qed.

End FadeInFacts.

(** * Instances *)

Lemma displays_change_on_validation_only_witness :
  validates (Edit Name (str "Jo")) = false /\
  step plainPage invalidForm (Edit Name (str "Jo"))
    = Some (setValue Name (str "Jo") invalidForm) /\
  shown (setValue Name (str "Jo") invalidForm) = shown invalidForm.
Proof.
  assert (H1 : validates (Edit Name (str "Jo")) = false) by reflexivity.
  assert (H2 : step plainPage invalidForm (Edit Name (str "Jo"))
               = Some (setValue Name (str "Jo") invalidForm)) by reflexivity.
  split; [exact H1|]. split; [exact H2|].
  exact (proj1 (proj2 (displays_change_on_validation_only
                         plainPage invalidForm _ H1 H2))).
Defined.

Lemma reset_is_not_validated_witness :
  (forall f, defaultValue plainPage f = []) /\
  buttonDisabled validForm = false /\
  snd (validateForm plainPage validForm) = true /\
  exists st3,
    run plainPage validForm [Submit; Wait 2000; Fire 0] = Some st3 /\
    forall f, get f (values st3) = [] /\
              validValue f (get f (values st3)) = false /\
              displayed f st3 = Valid.
Proof.
  assert (H1 : forall f, defaultValue plainPage f = []) by reflexivity.
  assert (H2 : buttonDisabled validForm = false) by reflexivity.
  assert (H3 : snd (validateForm plainPage validForm) = true)
    by (vm_compute; reflexivity).
  split; [exact H1|]. split; [exact H2|]. split; [exact H3|].
  exact (reset_is_not_validated plainPage validForm H1 H2 H3).
Defined.


Lemma style_elements_accumulate_witness :
  run plainPage validForm submitTwice = Some afterSubmitTwice /\
  styles afterSubmitTwice =
    styles validForm + (created afterSubmitTwice - created validForm).
Proof.
  assert (H : run plainPage validForm submitTwice = Some afterSubmitTwice)
    by (vm_compute; reflexivity).
  split; [exact H|].
  exact (proj2 (@style_elements_accumulate plainPage validForm
                  afterSubmitTwice submitTwice H)).
Defined.

Lemma dismiss_removes_only_that_witness :
  reachable plainPage afterSubmitTwice /\
  In 0 (notifications afterSubmitTwice) /\
  S (List.length (notifications (onCloseClick 0 afterSubmitTwice))) =
    List.length (notifications afterSubmitTwice).
Proof.
  assert (R : reachable plainPage afterSubmitTwice).
  { exists validForm, submitTwice. split; [repeat split|].
    vm_compute. reflexivity. }
  assert (I : In 0 (notifications afterSubmitTwice)) by (simpl; now left).
  split; [exact R|]. split; [exact I|].
  exact (proj2 (proj2 (proj2 (proj2
           (@dismiss_removes_only_that plainPage afterSubmitTwice 0 R I))))).
Defined.

Lemma accepted_email_shape_witness :
  snd (validateEmail plainPage validForm) = true /\
  count_occ N.eq_dec (trim (get Email (values validForm))) AT = 1.
Proof.
  assert (H : snd (validateEmail plainPage validForm) = true)
    by (vm_compute; reflexivity).
  split; [exact H|].
  exact (proj1 (@accepted_email_shape plainPage validForm H)).
Defined.

Lemma throttle_one_pending_witness :
  exists st,
    Throttle.run 16 (Throttle.fresh nat 0 0)
      [Throttle.Call 1; Throttle.Wait 5; Throttle.Call 2; Throttle.Wait 16;
       Throttle.Fire 1] = Some st /\
    Throttle.onePending st.
Proof.
  destruct (Throttle.run 16 (Throttle.fresh nat 0 0)
              [Throttle.Call 1; Throttle.Wait 5; Throttle.Call 2;
               Throttle.Wait 16; Throttle.Fire 1]) as [st|] eqn:R.
  - exists st. split; [reflexivity|].
    exact (proj1 (@ThrottleFacts.throttle_one_pending nat 16 0 0 _ st R)).
  - vm_compute in R. discriminate.
Defined.

Lemma throttle_debounces_witness :
  exists st,
    Throttle.run 16 (Throttle.fresh nat 0 0)
      ([Throttle.Call 1; Throttle.Wait 5] ++
       Throttle.Call 2 :: [Throttle.Wait 16]) = Some st /\
    Throttle.invoked st = [].
Proof.
  destruct (Throttle.run 16 (Throttle.fresh nat 0 0)
              ([Throttle.Call 1; Throttle.Wait 5] ++
               Throttle.Call 2 :: [Throttle.Wait 16])) as [st|] eqn:R.
  - exists st. split; [reflexivity|].
    assert (I0 : Throttle.onePending (Throttle.fresh nat 0 0)) by (now left).
    exact (proj1 (@ThrottleFacts.throttle_debounces nat 16
                    (Throttle.fresh nat 0 0) st
                    [Throttle.Call 1; Throttle.Wait 5] [Throttle.Wait 16] 2
                    I0 eq_refl eq_refl R)).
  - vm_compute in R. discriminate.
Defined.

Lemma typewriter_shows_prefix_witness :
  exists st,
    TypeWriter.run (TypeWriter.setup (str "Hi") 0)
      [TypeWriter.Wait 1000; TypeWriter.Fire] = Some st /\
    TypeWriter.heroTitle st = firstn (TypeWriter.i st) (str "Hi").
Proof.
  destruct (TypeWriter.run (TypeWriter.setup (str "Hi") 0)
              [TypeWriter.Wait 1000; TypeWriter.Fire]) as [st|] eqn:R.
  - exists st. split; [reflexivity|].
    exact (proj1 (@TypeWriterFacts.typewriter_shows_prefix (str "Hi") 0 _ st R)).
  - vm_compute in R. discriminate.
Defined.

Lemma stacked_sections_have_one_in_view_witness :
  ScrollSpy.stacked ([homeSection] ++ aboutSection :: []) /\
  (0 <= ScrollSpy.offsetHeight aboutSection)%Z /\
  ScrollSpy.inBand 70 (inject_Z 600) aboutSection = true /\
  ScrollSpy.currentSection 70 (inject_Z 600)
    ([homeSection] ++ aboutSection :: []) = Some (str "about").
Proof.
  assert (H1 : ScrollSpy.stacked ([homeSection] ++ aboutSection :: []))
    by (simpl; repeat split; lia).
  assert (H2 : (0 <= ScrollSpy.offsetHeight aboutSection)%Z) by (simpl; lia).
  assert (H3 : ScrollSpy.inBand 70 (inject_Z 600) aboutSection = true)
    by reflexivity.
  split; [exact H1|]. split; [exact H2|]. split; [exact H3|].
  exact (proj2 (@ScrollSpyFacts.stacked_sections_have_one_in_view
                  70%Z (inject_Z 600) [homeSection] [] aboutSection H1 H2 H3)).
Defined.
